(** * YT-Playlist-Downloader: retry engine, circuit breaker, job store and
      orchestrator, as a shallow embedding of the Python sources
      [error_handling.py], [database.py] and [youtube_downloader.py].

    Conventions of the embedding.
    - Python [float] timestamps and delays are exact rationals ([Q]); every
      value used in a concrete evaluation below is a dyadic rational, so it is
      also an exact binary float.
    - Python [str] is [string]; [str.lower] is modelled on ASCII letters and
      keeps every other character.
    - [time.time], [time.sleep] and [random.random] are effects on an explicit
      world; what the retry engine does (calls of the operation, sleeps) is
      returned as a trace.
    - The logger is not modelled: log entries never influence control flow.
    - The SQLite connection is assumed to work: the [except] branches that log
      a storage fault and leave the tables as they were are not modelled. *)

From Stdlib Require Import ZArith QArith Qpower Qminmax Qabs Lqa Lia.
From Stdlib Require Import String Ascii List Bool.
From stdpp Require Import gmap strings sorting.
Import ListNotations.

Local Open Scope string_scope.
Local Open Scope Z_scope.

(** ** Python built-ins used by the sources *)

Module Py.

(** [c.lower()] for one ASCII character. *)
Definition lower_ascii (c : ascii) : ascii :=
  let n := nat_of_ascii c in
  if (Nat.leb 65 n && Nat.leb n 90)%bool then ascii_of_nat (n + 32) else c.

(** [s.lower()]. *)
Fixpoint lower (s : string) : string :=
  match s with
  | EmptyString => EmptyString
  | String c r => String (lower_ascii c) (lower r)
  end.

(** [needle in hay] on strings. *)
Fixpoint contains (needle hay : string) : bool :=
  (String.prefix needle hay
   || match hay with
      | EmptyString => false
      | String _ r => contains needle r
      end)%bool.

(** [any(keyword in s for keyword in keywords)]. *)
Definition any_in (keywords : list string) (s : string) : bool :=
  existsb (fun keyword => contains keyword s) keywords.

(** Truthiness of an optional string argument: [None] and [""] are false. *)
Definition truthy (s : option string) : bool :=
  match s with
  | Some (String _ _) => true
  | _ => false
  end.

(** [a < b] on floats. *)
Definition Qltb (a b : Q) : bool := negb (Qle_bool b a).

(** [random.uniform(a, b)], from the value [r] of [random.random()]. *)
Definition uniform (a b r : Q) : Q := (a + (b - a) * r)%Q.

End Py.

(** ** error_handling.py *)

Module ErrorHandling.

Inductive ErrorType : Set :=
| NETWORK_ERROR
| QUOTA_EXCEEDED
| VIDEO_UNAVAILABLE
| PERMISSION_ERROR
| DISK_FULL
| FORMAT_ERROR
| UNKNOWN.

Definition ErrorType_eqb (a b : ErrorType) : bool :=
  match a, b with
  | NETWORK_ERROR, NETWORK_ERROR
  | QUOTA_EXCEEDED, QUOTA_EXCEEDED
  | VIDEO_UNAVAILABLE, VIDEO_UNAVAILABLE
  | PERMISSION_ERROR, PERMISSION_ERROR
  | DISK_FULL, DISK_FULL
  | FORMAT_ERROR, FORMAT_ERROR
  | UNKNOWN, UNKNOWN => true
  | _, _ => false
  end.

Record RetryConfig : Type := {
  max_attempts : Z;
  base_delay : Q;
  max_delay : Q;
  exponential_base : Q;
  jitter : bool;
  retryable_errors : list ErrorType
}.

(** [RetryConfig()] with its defaults, [max_attempts] possibly overridden. *)
Definition RetryConfig_default (attempts : Z) : RetryConfig :=
  {| max_attempts := attempts;
     base_delay := 1;
     max_delay := 60;
     exponential_base := 2;
     jitter := true;
     retryable_errors := [NETWORK_ERROR; QUOTA_EXCEEDED; UNKNOWN] |}.

(** [DownloadError] and its subclasses: the subclass is determined by
    [error_type]. The [timestamp] attribute is never read and is left out;
    [original_error] holds [str] of the wrapped exception. *)
Record DownloadError : Type := {
  message : string;
  error_type : ErrorType;
  url : option string;
  original_error : option string
}.

(** [DownloadError(message)]: the kind defaults to [UNKNOWN]. *)
Definition DownloadError_plain (msg : string) : DownloadError :=
  {| message := msg; error_type := UNKNOWN; url := None; original_error := None |}.

Definition mk_error (kind : ErrorType) (msg u : string) : DownloadError :=
  {| message := msg; error_type := kind; url := Some u; original_error := None |}.

Definition network_keywords : list string :=
  ["network"; "connection"; "timeout"; "unreachable"; "http error 5";
   "temporary failure"; "unable to connect"; "connection refused"].
Definition quota_keywords : list string :=
  ["quota exceeded"; "rate limit"; "too many requests"; "http error 429"].
Definition unavailable_keywords : list string :=
  ["video unavailable"; "private video"; "deleted"; "not available";
   "blocked in your country"; "age-restricted"; "http error 404"].
Definition permission_keywords : list string :=
  ["permission denied"; "access denied"; "forbidden"; "http error 403"].
Definition disk_keywords : list string :=
  ["no space left"; "disk full"; "insufficient space"].
Definition format_keywords : list string :=
  ["no video formats found"; "format not available"; "unsupported format"].

(** [ErrorClassifier.classify_ytdlp_error]. *)
Definition classify_ytdlp_error (error_msg u : string) : DownloadError :=
  let error_msg_lower := Py.lower error_msg in
  if Py.any_in network_keywords error_msg_lower then
    mk_error NETWORK_ERROR error_msg u
  else if Py.any_in quota_keywords error_msg_lower then
    mk_error QUOTA_EXCEEDED error_msg u
  else if Py.any_in unavailable_keywords error_msg_lower then
    mk_error VIDEO_UNAVAILABLE error_msg u
  else if Py.any_in permission_keywords error_msg_lower then
    mk_error PERMISSION_ERROR error_msg u
  else if Py.any_in disk_keywords error_msg_lower then
    mk_error DISK_FULL error_msg u
  else if Py.any_in format_keywords error_msg_lower then
    mk_error FORMAT_ERROR error_msg u
  else
    mk_error UNKNOWN error_msg u.

(** The classifier as the specification words it: an ordered table of
    keyword groups, the first group with a keyword in the lower-cased
    message wins, [UNKNOWN] when none does. *)
Definition keyword_groups : list (list string * ErrorType) :=
  [(network_keywords, NETWORK_ERROR);
   (quota_keywords, QUOTA_EXCEEDED);
   (unavailable_keywords, VIDEO_UNAVAILABLE);
   (permission_keywords, PERMISSION_ERROR);
   (disk_keywords, DISK_FULL);
   (format_keywords, FORMAT_ERROR)].

Fixpoint first_matching_group (groups : list (list string * ErrorType))
         (lowered : string) : ErrorType :=
  match groups with
  | [] => UNKNOWN
  | (keywords, kind) :: rest =>
      if Py.any_in keywords lowered then kind
      else first_matching_group rest lowered
  end.

(** *** RetryManager *)

(** What the retry engine needs from its environment. *)
Class Runtime (W : Type) : Type := {
  sleep : Q -> W -> W;          (* time.sleep(delay) *)
  random : W -> Q * W           (* random.random() *)
}.

(** What a wrapped function can do: return, raise a [DownloadError], or
    raise another [Exception] whose [str] is [text]. *)
Inductive raised : Type :=
| RaisedDownloadError (e : DownloadError)
| RaisedException (text : string).

Inductive outcome (A : Type) : Type :=
| Returned (a : A)
| Raised (x : raised).
Arguments Returned {A} a.
Arguments Raised {A} x.

(** What [retry] does to its caller. [RaisedNone] is the [TypeError] of
    [raise last_error] with [last_error = None] (no attempt was made). *)
Inductive result (A : Type) : Type :=
| Ok (a : A)
| Err (e : DownloadError)
| RaisedNone.
Arguments Ok {A} a.
Arguments Err {A} e.
Arguments RaisedNone {A}.

(** The observable steps of [retry]: the [n]-th call of the function, with
    the classified error it ended in ([None] when it returned), and the
    back-off sleeps. *)
Inductive event : Type :=
| Attempt (n : Z) (failure : option DownloadError)
| Sleep (delay : Q).

Record run (A W : Type) : Type := {
  res : result A;
  world : W;
  trace : list event
}.
Arguments res {A W} r.
Arguments world {A W} r.
Arguments trace {A W} r.

Definition emit {A W : Type} (evs : list event) (r : run A W) : run A W :=
  {| res := res r; world := world r; trace := evs ++ trace r |}.

Section RetryManager.
Context {W : Type} `{Runtime W}.
Variable config : RetryConfig.

(** [RetryManager.calculate_delay]. [attempt] is at least 1 at every
    call site, so the exponent is never negative. *)
Definition calculate_delay (attempt : Z) (w : W) : Q * W :=
  let delay := (base_delay config * exponential_base config ^ (attempt - 1))%Q in
  let delay := Qmin delay (max_delay config) in
  if jitter config then
    let jitter_range := (delay * (1 # 4))%Q in
    let (r, w') := random w in
    (Qmax 0 (delay + Py.uniform (- jitter_range) jitter_range r)%Q, w')
  else
    (Qmax 0 delay, w).

(** [RetryManager.should_retry]. *)
Definition should_retry (error : DownloadError) (attempt : Z) : bool :=
  if attempt >=? max_attempts config then false
  else existsb (ErrorType_eqb (error_type error)) (retryable_errors config).

(** The error [retry] works with after an [except] clause: a
    [DownloadError] as it is, anything else classified from its text. *)
Definition caught (x : raised) : DownloadError :=
  match x with
  | RaisedDownloadError e => e
  | RaisedException text =>
      let classified_error := classify_ytdlp_error text "" in
      {| message := message classified_error;
         error_type := error_type classified_error;
         url := url classified_error;
         original_error := Some text |}
  end.

Section Retry.
Context {A : Type}.
Variable func : W -> outcome A * W.

(** The [for attempt in range(1, max_attempts + 1)] loop of
    [RetryManager.retry], [remaining] iterations from [attempt] on. *)
Fixpoint retry_from (remaining : nat) (attempt : Z)
         (last_error : option DownloadError) (w : W) : run A W :=
  match remaining with
  | O =>
      {| res := match last_error with Some e => Err e | None => RaisedNone end;
         world := w; trace := [] |}
  | S remaining' =>
      match func w with
      | (Returned a, w1) =>
          {| res := Ok a; world := w1; trace := [Attempt attempt None] |}
      | (Raised x, w1) =>
          let e := caught x in
          if negb (should_retry e attempt) then
            {| res := Err e; world := w1; trace := [Attempt attempt (Some e)] |}
          else if attempt <? max_attempts config then
            let (delay, w2) := calculate_delay attempt w1 in
            emit [Attempt attempt (Some e); Sleep delay]
                 (retry_from remaining' (attempt + 1) (Some e) (sleep delay w2))
          else
            emit [Attempt attempt (Some e)]
                 (retry_from remaining' (attempt + 1) (Some e) w1)
      end
  end.

(** [RetryManager.retry]. *)
Definition retry (w : W) : run A W :=
  retry_from (Z.to_nat (max_attempts config)) 1 None w.
End Retry.
End RetryManager.

(** [with_retry(retry_config)(func)]: a fresh [RetryManager] per call;
    [RetryManager(None)] takes [RetryConfig()]. *)
Definition with_retry {W A : Type} `{Runtime W} (retry_config : option RetryConfig)
           (func : W -> outcome A * W) : W -> run A W :=
  retry (match retry_config with Some c => c | None => RetryConfig_default 3 end) func.

(** The delay of [calculate_delay] before jitter: the exponential, capped. *)
Definition capped_delay (config : RetryConfig) (attempt : Z) : Q :=
  Qmin (base_delay config * exponential_base config ^ (attempt - 1))%Q
       (max_delay config).

(** Reading the trace of a run: the classified errors of the failed
    attempts, the number of calls of the function, the delays slept. *)
Definition failures (tr : list event) : list DownloadError :=
  flat_map (fun ev => match ev with Attempt _ (Some e) => [e] | _ => [] end) tr.

Definition attempts (tr : list event) : Z :=
  Z.of_nat (length (List.filter
                      (fun ev => match ev with Attempt _ _ => true | Sleep _ => false end)
                      tr)).

Definition sleeps (tr : list event) : list Q :=
  flat_map (fun ev => match ev with Sleep delay => [delay] | _ => [] end) tr.

(** The kind of the error is in the policy's retryable set. *)
Definition retryable (config : RetryConfig) (e : DownloadError) : bool :=
  existsb (ErrorType_eqb (error_type e)) (retryable_errors config).

(** The number of the first attempt, counted from [position], whose error
    is not retryable; [None] when every error is. *)
Fixpoint first_non_retryable (config : RetryConfig) (errors : list DownloadError)
         (position : Z) : option Z :=
  match errors with
  | [] => None
  | e :: rest =>
      if retryable config e then first_non_retryable config rest (position + 1)
      else Some position
  end.

(** *** CircuitBreaker *)

Inductive BreakerState : Set := closed | open | half_open.

Record CircuitBreaker : Type := {
  failure_threshold : Z;
  timeout : Z;
  failure_count : Z;
  last_failure_time : option Q;
  state : BreakerState
}.

(** [CircuitBreaker(failure_threshold, timeout)]. *)
Definition CircuitBreaker_init (threshold open_timeout : Z) : CircuitBreaker :=
  {| failure_threshold := threshold; timeout := open_timeout;
     failure_count := 0; last_failure_time := None; state := closed |}.

Definition set_state (s : BreakerState) (cb : CircuitBreaker) : CircuitBreaker :=
  {| failure_threshold := failure_threshold cb; timeout := timeout cb;
     failure_count := failure_count cb;
     last_failure_time := last_failure_time cb; state := s |}.

(** [CircuitBreaker.can_execute], [now] being the value of [time.time()].
    [None] is the [TypeError] of subtracting [last_failure_time = None]. *)
Definition can_execute (now : Q) (cb : CircuitBreaker) : option (bool * CircuitBreaker) :=
  match state cb with
  | closed => Some (true, cb)
  | open =>
      match last_failure_time cb with
      | None => None
      | Some t =>
          if Py.Qltb (inject_Z (timeout cb)) (now - t)
          then Some (true, set_state half_open cb)
          else Some (false, cb)
      end
  | half_open => Some (true, cb)
  end.

(** [CircuitBreaker.record_success]. *)
Definition record_success (cb : CircuitBreaker) : CircuitBreaker :=
  match state cb with
  | half_open =>
      {| failure_threshold := failure_threshold cb; timeout := timeout cb;
         failure_count := 0;
         last_failure_time := last_failure_time cb; state := closed |}
  | _ => cb
  end.

(** [CircuitBreaker.record_failure], [now] being the value of [time.time()]. *)
Definition record_failure (now : Q) (cb : CircuitBreaker) : CircuitBreaker :=
  let counted :=
    {| failure_threshold := failure_threshold cb; timeout := timeout cb;
       failure_count := failure_count cb + 1;
       last_failure_time := Some now; state := state cb |} in
  if failure_count counted >=? failure_threshold counted then
    match state counted with
    | open => counted
    | _ => set_state open counted
    end
  else counted.

(** The calls a worker can make on the shared breaker. *)
Inductive breaker_call : Type :=
| CanExecute (now : Q)
| RecordSuccess
| RecordFailure (now : Q).

Definition breaker_step (cb : CircuitBreaker) (c : breaker_call) : option CircuitBreaker :=
  match c with
  | CanExecute now => snd <$> can_execute now cb
  | RecordSuccess => Some (record_success cb)
  | RecordFailure now => Some (record_failure now cb)
  end.

Fixpoint breaker_run (cb : CircuitBreaker) (calls : list breaker_call) : option CircuitBreaker :=
  match calls with
  | [] => Some cb
  | c :: rest =>
      match breaker_step cb c with
      | Some cb' => breaker_run cb' rest
      | None => None
      end
  end.

(** No [record_success()] of the run is made while the breaker is half-open. *)
Fixpoint no_success_in_half_open (cb : CircuitBreaker) (calls : list breaker_call) : bool :=
  match calls with
  | [] => true
  | c :: rest =>
      (match c, state cb with
       | RecordSuccess, half_open => false
       | _, _ => true
       end
       && match breaker_step cb c with
          | Some cb' => no_success_in_half_open cb' rest
          | None => true
          end)%bool
  end.

Definition is_failure (c : breaker_call) : bool :=
  match c with RecordFailure _ => true | _ => false end.

(** How many [record_failure()] calls a run makes. *)
Definition count_failures (calls : list breaker_call) : Z :=
  Z.of_nat (length (List.filter is_failure calls)).

(** An open breaker always has the time of a failure to compare with. *)
Definition breaker_wf (cb : CircuitBreaker) : Prop :=
  state cb = open -> is_Some (last_failure_time cb).

(** *** GracefulShutdown *)

Record GracefulShutdown : Type := {
  shutdown_requested : bool;
  active_downloads : gset string
}.

Definition GracefulShutdown_init : GracefulShutdown :=
  {| shutdown_requested := false; active_downloads := ∅ |}.

Definition request_shutdown (g : GracefulShutdown) : GracefulShutdown :=
  {| shutdown_requested := true; active_downloads := active_downloads g |}.

Definition is_shutdown_requested (g : GracefulShutdown) : bool := shutdown_requested g.

Definition register_download (download_id : string) (g : GracefulShutdown) : GracefulShutdown :=
  {| shutdown_requested := shutdown_requested g;
     active_downloads := {[download_id]} ∪ active_downloads g |}.

Definition unregister_download (download_id : string) (g : GracefulShutdown) : GracefulShutdown :=
  {| shutdown_requested := shutdown_requested g;
     active_downloads := active_downloads g ∖ {[download_id]} |}.

End ErrorHandling.

(** ** database.py *)

Module Database.

(** A row of the [downloads] table ([DownloadRecord]). *)
Record DownloadRecord : Type := {
  id : string;
  playlist_url : string;
  video_url : string;
  video_id : string;
  title : string;
  filename : string;
  status : string;
  file_size : Z;
  downloaded_bytes : Z;
  quality : string;
  format : string;
  error_message : string;
  created_at : Q;
  started_at : option Q;
  completed_at : option Q;
  metadata : string
}.

(** A row of the [download_sessions] table, without its primary key. *)
Record SessionRow : Type := {
  session_playlist_url : string;
  session_started_at : Q;
  session_completed_at : option Q;
  session_status : string;
  total_videos : Z;
  completed_videos : Z;
  failed_videos : Z;
  config : string
}.

(** The tables the orchestrator writes, each keyed by its primary key. *)
Record DownloadDatabase : Type := {
  downloads : gmap string DownloadRecord;
  download_sessions : gmap string SessionRow
}.

Definition with_downloads (t : gmap string DownloadRecord) (db : DownloadDatabase) :=
  {| downloads := t; download_sessions := download_sessions db |}.

Definition with_sessions (t : gmap string SessionRow) (db : DownloadDatabase) :=
  {| downloads := downloads db; download_sessions := t |}.

(** [DownloadRecord(id=..., ..., status=..., quality=..., format=...)] as
    [_create_download_records] builds it: the other fields take their
    defaults, and [__post_init__] stamps [created_at]. *)
Definition DownloadRecord_new (now : Q)
           (r_id p_url v_url v_id r_title r_filename r_status r_quality r_format : string)
  : DownloadRecord :=
  {| id := r_id; playlist_url := p_url; video_url := v_url; video_id := v_id;
     title := r_title; filename := r_filename; status := r_status;
     file_size := 0; downloaded_bytes := 0; quality := r_quality;
     format := r_format; error_message := ""; created_at := now;
     started_at := None; completed_at := None; metadata := "{}" |}.

(** The [SET] clauses [update_download_status] can put in its [UPDATE]. *)
Inductive assignment : Type :=
| set_status (s : string)
| set_downloaded_bytes (n : Z)
| set_started_at (t : Q)
| set_completed_at (t : Q)
| set_error_message (m : string).

Definition assign (a : assignment) (r : DownloadRecord) : DownloadRecord :=
  {| id := id r; playlist_url := playlist_url r; video_url := video_url r;
     video_id := video_id r; title := title r; filename := filename r;
     status := match a with set_status s => s | _ => status r end;
     file_size := file_size r;
     downloaded_bytes :=
       match a with set_downloaded_bytes n => n | _ => downloaded_bytes r end;
     quality := quality r; format := format r;
     error_message :=
       match a with set_error_message m => m | _ => error_message r end;
     created_at := created_at r;
     started_at := match a with set_started_at t => Some t | _ => started_at r end;
     completed_at :=
       match a with set_completed_at t => Some t | _ => completed_at r end;
     metadata := metadata r |}.

(** The [updates]/[params] lists built by [update_download_status]. *)
Definition status_updates (now : Q) (new_status : string)
           (bytes : option Z) (error : option string) : list assignment :=
  set_status new_status ::
  match String.eqb new_status "downloading", bytes with
  | true, Some n => [set_downloaded_bytes n; set_started_at now]
  | _, _ =>
      if String.eqb new_status "completed" then [set_completed_at now]
      else if (String.eqb new_status "failed" && Py.truthy error)%bool then
        [set_error_message (default "" error)]
      else []
  end.

(** [DownloadDatabase.update_download_status]: [UPDATE downloads SET ...
    WHERE id = ?], returning [cursor.rowcount > 0]. [now] is [time.time()]. *)
Definition update_download_status (now : Q) (download_id new_status : string)
           (bytes : option Z) (error : option string)
           (db : DownloadDatabase) : bool * DownloadDatabase :=
  let updates := status_updates now new_status bytes error in
  match downloads db !! download_id with
  | Some row =>
      (true, with_downloads (<[download_id := foldl (fun r a => assign a r) row updates]>
                               (downloads db)) db)
  | None => (false, db)
  end.

(** [DownloadDatabase.is_video_downloaded]. *)
Definition is_video_downloaded (p_url v_id : string) (db : DownloadDatabase) : bool :=
  existsb (fun kv : string * DownloadRecord =>
             (String.eqb (playlist_url kv.2) p_url
              && String.eqb (video_id kv.2) v_id
              && String.eqb (status kv.2) "completed")%bool)
          (map_to_list (downloads db)).

(** [DownloadDatabase.add_download]: [INSERT OR REPLACE], which first
    removes any row in conflict on the primary key or on
    [UNIQUE(playlist_url, video_id)]. *)
Definition add_download (record : DownloadRecord) (db : DownloadDatabase) : bool * DownloadDatabase :=
  let kept :=
    filter (fun kv : string * DownloadRecord =>
              ¬ (playlist_url kv.2 = playlist_url record ∧ video_id kv.2 = video_id record))
           (downloads db) in
  (true, with_downloads (<[id record := record]> kept) db).

(** [DownloadDatabase.create_download_session]. [session_id] is the token
    [_generate_session_id] computed; a plain [INSERT] fails on an id that
    exists, which the method logs, returning the id all the same. *)
Definition create_download_session (now : Q) (session_id p_url : string) (total : Z)
           (config_json : string) (db : DownloadDatabase) : string * DownloadDatabase :=
  match download_sessions db !! session_id with
  | Some _ => (session_id, db)
  | None =>
      (session_id,
       with_sessions
         (<[session_id :=
              {| session_playlist_url := p_url; session_started_at := now;
                 session_completed_at := None; session_status := "active";
                 total_videos := total; completed_videos := 0; failed_videos := 0;
                 config := config_json |}]> (download_sessions db)) db)
  end.

(** [DownloadDatabase.update_session_stats]. *)
Definition update_session_stats (session_id : string) (completed failed : option Z)
           (db : DownloadDatabase) : DownloadDatabase :=
  let set (row : SessionRow) :=
    {| session_playlist_url := session_playlist_url row;
       session_started_at := session_started_at row;
       session_completed_at := session_completed_at row;
       session_status := session_status row;
       total_videos := total_videos row;
       completed_videos := default (completed_videos row) completed;
       failed_videos := default (failed_videos row) failed;
       config := config row |} in
  with_sessions (alter set session_id (download_sessions db)) db.

(** [DownloadDatabase.complete_session]; the source's default for
    [new_status] is ["completed"]. *)
Definition complete_session (now : Q) (session_id new_status : string)
           (db : DownloadDatabase) : DownloadDatabase :=
  let set (row : SessionRow) :=
    {| session_playlist_url := session_playlist_url row;
       session_started_at := session_started_at row;
       session_completed_at := Some now;
       session_status := new_status;
       total_videos := total_videos row;
       completed_videos := completed_videos row;
       failed_videos := failed_videos row;
       config := config row |} in
  with_sessions (alter set session_id (download_sessions db)) db.

(** The [WHERE] clause of [cleanup_old_sessions]:
    [status IN ('completed', 'cancelled') AND completed_at < ?]; a [NULL]
    [completed_at] never satisfies the comparison. *)
Definition expired (cutoff_time : Q) (row : SessionRow) : bool :=
  ((String.eqb (session_status row) "completed"
    || String.eqb (session_status row) "cancelled")
   && match session_completed_at row with
      | Some t => Py.Qltb t cutoff_time
      | None => false
      end)%bool.

(** [DownloadDatabase.cleanup_old_sessions]. The method has no [return]:
    [cursor.rowcount] is only logged, and the caller gets [None] ([tt]). *)
Definition cleanup_old_sessions (now : Q) (days : Z)
           (db : DownloadDatabase) : unit * DownloadDatabase :=
  let cutoff_time := (now - inject_Z (days * 24 * 60 * 60))%Q in
  (tt, with_sessions
         (filter (fun kv : string * SessionRow => ¬ expired cutoff_time kv.2 = true)
                 (download_sessions db)) db).

(** The rows that statement removes ([cursor.rowcount]). *)
Definition deleted_count (now : Q) (days : Z) (db : DownloadDatabase) : nat :=
  let cutoff_time := (now - inject_Z (days * 24 * 60 * 60))%Q in
  size (filter (fun kv : string * SessionRow => expired cutoff_time kv.2 = true)
               (download_sessions db)).

End Database.

(** ** youtube_downloader.py *)

Module Downloader.
Import ErrorHandling.

(** The mutable state a [YouTubeDownloader] works on, with the clock and
    the random source of the process. The progress tracker and the
    reporters are write-only for the code below and are left out. *)
Record YouTubeDownloader : Type := {
  clock : Q;                                   (* time.time() *)
  entropy : nat -> Q;                          (* values of random.random() *)
  drawn : nat;                                 (* how many were consumed *)
  database : option Database.DownloadDatabase;
  circuit_breaker : CircuitBreaker;
  graceful_shutdown : GracefulShutdown;
  active_downloads : gmap string string;       (* id -> {'filename': ...} *)
  session_id : option string;
  existing_files : gset string                 (* output paths that exist *)
}.

Definition set_clock (t : Q) (d : YouTubeDownloader) : YouTubeDownloader :=
  {| clock := t; entropy := entropy d; drawn := drawn d; database := database d;
     circuit_breaker := circuit_breaker d; graceful_shutdown := graceful_shutdown d;
     active_downloads := active_downloads d; session_id := session_id d;
     existing_files := existing_files d |}.

Definition set_drawn (n : nat) (d : YouTubeDownloader) : YouTubeDownloader :=
  {| clock := clock d; entropy := entropy d; drawn := n; database := database d;
     circuit_breaker := circuit_breaker d; graceful_shutdown := graceful_shutdown d;
     active_downloads := active_downloads d; session_id := session_id d;
     existing_files := existing_files d |}.

Definition set_database (db : option Database.DownloadDatabase)
           (d : YouTubeDownloader) : YouTubeDownloader :=
  {| clock := clock d; entropy := entropy d; drawn := drawn d; database := db;
     circuit_breaker := circuit_breaker d; graceful_shutdown := graceful_shutdown d;
     active_downloads := active_downloads d; session_id := session_id d;
     existing_files := existing_files d |}.

Definition set_circuit_breaker (cb : CircuitBreaker)
           (d : YouTubeDownloader) : YouTubeDownloader :=
  {| clock := clock d; entropy := entropy d; drawn := drawn d; database := database d;
     circuit_breaker := cb; graceful_shutdown := graceful_shutdown d;
     active_downloads := active_downloads d; session_id := session_id d;
     existing_files := existing_files d |}.

Definition set_graceful_shutdown (g : GracefulShutdown)
           (d : YouTubeDownloader) : YouTubeDownloader :=
  {| clock := clock d; entropy := entropy d; drawn := drawn d; database := database d;
     circuit_breaker := circuit_breaker d; graceful_shutdown := g;
     active_downloads := active_downloads d; session_id := session_id d;
     existing_files := existing_files d |}.

Definition set_active_downloads (a : gmap string string)
           (d : YouTubeDownloader) : YouTubeDownloader :=
  {| clock := clock d; entropy := entropy d; drawn := drawn d; database := database d;
     circuit_breaker := circuit_breaker d; graceful_shutdown := graceful_shutdown d;
     active_downloads := a; session_id := session_id d;
     existing_files := existing_files d |}.

Definition set_session_id (sid : option string)
           (d : YouTubeDownloader) : YouTubeDownloader :=
  {| clock := clock d; entropy := entropy d; drawn := drawn d; database := database d;
     circuit_breaker := circuit_breaker d; graceful_shutdown := graceful_shutdown d;
     active_downloads := active_downloads d; session_id := sid;
     existing_files := existing_files d |}.

(** [YouTubeDownloader(config)]: what [__init__] sets up, started at time
    [now] with the random source [rand] and the existing output [files];
    [db] is the opened database when [config.use_database]. *)
Definition YouTubeDownloader_init (now : Q) (rand : nat -> Q)
           (db : option Database.DownloadDatabase) (files : gset string)
  : YouTubeDownloader :=
  {| clock := now; entropy := rand; drawn := 0; database := db;
     circuit_breaker := CircuitBreaker_init 5 300;
     graceful_shutdown := GracefulShutdown_init;
     active_downloads := ∅; session_id := None; existing_files := files |}.

(** [time.sleep] lets the clock advance by the delay; [random.random]
    consumes the next value of the source. *)
#[global] Instance downloader_runtime : Runtime YouTubeDownloader := {
  sleep delay d := set_clock (clock d + delay)%Q d;
  random d := (entropy d (drawn d), set_drawn (S (drawn d)) d)
}.

(** [self.database.<op>(...)] under [if self.database:]. *)
Definition on_database (op : Database.DownloadDatabase -> Database.DownloadDatabase)
           (d : YouTubeDownloader) : YouTubeDownloader :=
  match database d with
  | Some db => set_database (Some (op db)) d
  | None => d
  end.

(** The [finally] clause of [_download_single_video]. *)
Definition cleanup_download (record_id : string) (d : YouTubeDownloader) : YouTubeDownloader :=
  set_active_downloads (delete record_id (active_downloads d))
    (set_graceful_shutdown (unregister_download record_id (graceful_shutdown d)) d).

Definition circuit_open_message : string :=
  "Circuit breaker is open - too many failures".
Definition shutdown_message : string := "Shutdown requested".
(** [str] of the [TypeError] of [time.time() - None]. *)
Definition none_operand_message : string :=
  "unsupported operand type(s) for -: 'float' and 'NoneType'".

Section Collaborator.
(** The media fetcher, [YoutubeDL(opts).download([video_url])]: it
    returns ([None]) or raises an exception with the given text, and may
    change anything meanwhile (time passes, hooks run, a signal sets the
    shutdown flag). *)
Variable ydl_download : string -> YouTubeDownloader -> option string * YouTubeDownloader.

(** The body of [_download_single_video], under its decorator. *)
Definition download_single_video_body (record : Database.DownloadRecord)
           (d : YouTubeDownloader) : outcome bool * YouTubeDownloader :=
  match can_execute (clock d) (circuit_breaker d) with
  | None => (Raised (RaisedException none_operand_message), d)
  | Some (allowed, cb) =>
      let d := set_circuit_breaker cb d in
      if negb allowed then
        (Raised (RaisedDownloadError (DownloadError_plain circuit_open_message)), d)
      else if is_shutdown_requested (graceful_shutdown d) then
        (Raised (RaisedDownloadError (DownloadError_plain shutdown_message)), d)
      else
        let record_id := Database.id record in
        let d := set_graceful_shutdown
                   (register_download record_id (graceful_shutdown d)) d in
        let d := set_active_downloads
                   (<[record_id := Database.filename record]> (active_downloads d)) d in
        let d := on_database
                   (fun db => snd (Database.update_download_status
                                     (clock d) record_id "downloading" None None db)) d in
        if match database d with
           | Some db =>
               (bool_decide (Database.filename record ∈ existing_files d)
                && Database.is_video_downloaded (Database.playlist_url record)
                                                (Database.video_id record) db)%bool
           | None => false
           end
        then (Returned true, cleanup_download record_id d)
        else
          match ydl_download (Database.video_url record) d with
          | (None, d) =>
              let d := set_circuit_breaker (record_success (circuit_breaker d)) d in
              (Returned true, cleanup_download record_id d)
          | (Some text, d) =>
              let error := classify_ytdlp_error text (Database.video_url record) in
              let d := set_circuit_breaker
                         (record_failure (clock d) (circuit_breaker d)) d in
              let d := on_database
                         (fun db => snd (Database.update_download_status
                                           (clock d) record_id "failed" None
                                           (Some (message error)) db)) d in
              (Raised (RaisedDownloadError error), cleanup_download record_id d)
          end
  end.

(** [_download_single_video], i.e. the body under [@with_retry()]. *)
Definition _download_single_video (record : Database.DownloadRecord)
  : YouTubeDownloader -> run bool YouTubeDownloader :=
  with_retry None (download_single_video_body record).

(** One schedule of the worker pool: the jobs run to completion one
    after the other in submission order, and each future is paired with
    what [is_shutdown_requested()] answers once it is done. *)
Fixpoint run_jobs (records : list Database.DownloadRecord) (d : YouTubeDownloader)
  : list (bool * result bool) * YouTubeDownloader :=
  match records with
  | [] => ([], d)
  | record :: rest =>
      let r := _download_single_video record d in
      let seen := is_shutdown_requested (graceful_shutdown (world r)) in
      let (futures, d') := run_jobs rest (world r) in
      ((seen, res r) :: futures, d')
  end.
End Collaborator.

(** The [for future in as_completed(...)] loop of [download_playlist].
    Each future comes with the answer of [is_shutdown_requested()] at its
    iteration and the result of its job, in completion order. *)
Fixpoint collect (futures : list (bool * result bool)) (success_count failed_count : Z)
         (d : YouTubeDownloader) : Z * Z * YouTubeDownloader :=
  match futures with
  | [] => (success_count, failed_count, d)
  | (shutdown_seen, job) :: rest =>
      if shutdown_seen then (success_count, failed_count, d)
      else
        let '(success_count, failed_count) :=
          match job with
          | Ok true => (success_count + 1, failed_count)
          | Ok false => (success_count, failed_count + 1)
          | Err _ | RaisedNone => (success_count, failed_count + 1)
          end in
        let d :=
          match session_id d with
          | Some sid =>
              on_database (Database.update_session_stats
                             sid (Some success_count) (Some failed_count)) d
          | None => d
          end in
        collect rest success_count failed_count d
  end.

(** What [download_playlist] gets from [_extract_playlist_info] and
    [_create_download_records]. *)
Record Playlist : Type := {
  playlist_title : string;
  video_count : Z;
  download_records : list Database.DownloadRecord
}.

(** The futures the loop gets through: those before the first one at
    which shutdown is seen. *)
Fixpoint processed (futures : list (bool * result bool)) : list (result bool) :=
  match futures with
  | [] => []
  | (shutdown_seen, job) :: rest =>
      if shutdown_seen then [] else job :: processed rest
  end.

Definition succeeded (job : result bool) : bool :=
  match job with Ok true => true | _ => false end.

Definition count_succeeded (jobs : list (result bool)) : Z :=
  Z.of_nat (length (List.filter succeeded jobs)).

Definition count_failed (jobs : list (result bool)) : Z :=
  Z.of_nat (length (List.filter (fun job => negb (succeeded job)) jobs)).

(** The [if self.database:] block of [download_playlist] that creates the
    session and stores the download records. *)
Definition start_session (p_url : string) (playlist : Playlist)
           (new_session_id config_json : string)
           (d : YouTubeDownloader) : YouTubeDownloader :=
  match database d with
  | Some db =>
      let (sid, db) := Database.create_download_session
                         (clock d) new_session_id p_url (video_count playlist)
                         config_json db in
      let db := fold_left (fun db record => snd (Database.add_download record db))
                          (download_records playlist) db in
      set_session_id (Some sid) (set_database (Some db) d)
  | None => d
  end.

(** [download_playlist] with [resume=False]. [extracted] is [None] when
    [_extract_playlist_info] raises; [new_session_id] and [config_json] are
    the token and the configuration dump the session is created with.
    [pool] is the executor: it runs the submitted jobs and hands back the
    futures in the order [as_completed] yields them, each with the answer
    of [is_shutdown_requested()] at its iteration. The jobs write the
    [downloads] table and the loop the session row, so the effects of the
    jobs are taken first. *)
Definition download_playlist (p_url : string) (extracted : option Playlist)
           (new_session_id config_json : string)
           (pool : list Database.DownloadRecord -> YouTubeDownloader
                   -> list (bool * result bool) * YouTubeDownloader)
           (d : YouTubeDownloader) : bool * YouTubeDownloader :=
  match extracted with
  | None =>
      (false,
       match session_id d with
       | Some sid => on_database (Database.complete_session (clock d) sid "failed") d
       | None => d
       end)
  | Some playlist =>
      let d := start_session p_url playlist new_session_id config_json d in
      let (futures, d) := pool (download_records playlist) d in
      let '(success_count, failed_count, d) := collect futures 0 0 d in
      let d :=
        match session_id d with
        | Some sid => on_database (Database.complete_session (clock d) sid "completed") d
        | None => d
        end in
      (failed_count =? 0, d)
  end.

End Downloader.

(** ** A three-item playlist

    The end-to-end scenario of the specification: three items, the fetch of
    the second always failing with "Video unavailable". *)

Module Scenario.
Import ErrorHandling.

Definition playlist_url : string := "https://youtube.com/playlist?list=PL1".

Definition item (n : string) : Database.DownloadRecord :=
  Database.DownloadRecord_new 0 ("id" ++ n) playlist_url
    ("https://youtube.com/watch?v=" ++ n) n ("Title " ++ n)
    ("Title " ++ n ++ ".mp4") "pending" "720" "mp4".

Definition playlist : Downloader.Playlist :=
  {| Downloader.playlist_title := "Three items";
     Downloader.video_count := 3;
     Downloader.download_records := [item "1"; item "2"; item "3"] |}.

Definition ydl_download (video_url : string) (d : Downloader.YouTubeDownloader)
  : option string * Downloader.YouTubeDownloader :=
  if String.eqb video_url "https://youtube.com/watch?v=2"
  then (Some "ERROR: Video unavailable", d)
  else (None, d).

Definition empty_database : Database.DownloadDatabase :=
  {| Database.downloads := ∅; Database.download_sessions := ∅ |}.

Definition fresh : Downloader.YouTubeDownloader :=
  Downloader.YouTubeDownloader_init 0 (fun _ => 1 # 2)%Q (Some empty_database) ∅.

(** The same downloader after [request_shutdown()]. *)
Definition shutting_down : Downloader.YouTubeDownloader :=
  Downloader.set_graceful_shutdown
    (request_shutdown (Downloader.graceful_shutdown fresh)) fresh.

Definition run (d : Downloader.YouTubeDownloader) : bool * Downloader.YouTubeDownloader :=
  Downloader.download_playlist playlist_url (Some playlist) "session1" "{}"
                               (Downloader.run_jobs ydl_download) d.

(** The row of the session after a run. *)
Definition session_row (out : bool * Downloader.YouTubeDownloader)
  : option Database.SessionRow :=
  db ← Downloader.database out.2; Database.download_sessions db !! "session1".
End Scenario.

(** ** database.py: queries and ResumeManager *)

Module Resume.

(** [a.created_at <= b.created_at], the order of [ORDER BY created_at]. *)
Definition created_before (a b : Database.DownloadRecord) : Prop :=
  (Database.created_at a <= Database.created_at b)%Q.

#[global] Instance created_before_dec (a b : Database.DownloadRecord) :
  Decision (created_before a b).
Proof. unfold created_before, Qle. apply _. Defined.

(** The rows of the [downloads] table. *)
Definition rows (db : Database.DownloadDatabase) : list Database.DownloadRecord :=
  (map_to_list (Database.downloads db)).*2.

(** [ORDER BY created_at]. SQL leaves the order of rows with equal
    timestamps open; the sort used here fixes one. *)
Definition order_by_created_at (l : list Database.DownloadRecord)
  : list Database.DownloadRecord :=
  merge_sort created_before l.

(** [status IN ('pending', 'downloading', 'failed')]. *)
Definition incomplete_status (s : string) : bool :=
  (String.eqb s "pending" || String.eqb s "downloading" || String.eqb s "failed")%bool.

(** The scope of [get_incomplete_downloads]: [if playlist_url:] is false
    for [None] and for the empty string, and then every playlist is taken. *)
Definition in_scope (p_url : option string) (r : Database.DownloadRecord) : bool :=
  if Py.truthy p_url then String.eqb (Database.playlist_url r) (default "" p_url)
  else true.

(** [DownloadDatabase.get_incomplete_downloads]. *)
Definition get_incomplete_downloads (p_url : option string)
           (db : Database.DownloadDatabase) : list Database.DownloadRecord :=
  order_by_created_at
    (List.filter (fun r => (in_scope p_url r
                            && incomplete_status (Database.status r))%bool)
                 (rows db)).

(** [DownloadDatabase.get_downloads_by_playlist]: [if status:] is false for
    [None] and for the empty string. *)
Definition get_downloads_by_playlist (p_url : string) (wanted : option string)
           (db : Database.DownloadDatabase) : list Database.DownloadRecord :=
  order_by_created_at
    (List.filter (fun r =>
                    (String.eqb (Database.playlist_url r) p_url
                     && (if Py.truthy wanted
                         then String.eqb (Database.status r) (default "" wanted)
                         else true))%bool)
                 (rows db)).

(** [DownloadDatabase.get_download]. *)
Definition get_download (download_id : string) (db : Database.DownloadDatabase)
  : option Database.DownloadRecord :=
  Database.downloads db !! download_id.

(** [ResumeManager.can_resume_playlist]. *)
Definition can_resume_playlist (p_url : string) (db : Database.DownloadDatabase) : bool :=
  (0 <? length (get_incomplete_downloads (Some p_url) db))%nat.

(** The dictionary [ResumeManager.get_resume_info] returns. *)
Record ResumeInfo : Type := {
  info_playlist_url : string;
  incomplete_count : nat;
  completed_count : nat;
  failed_count : nat;
  total_count : nat;
  incomplete_downloads : list Database.DownloadRecord;
  can_resume : bool
}.

(** [ResumeManager.get_resume_info]. *)
Definition get_resume_info (p_url : string) (db : Database.DownloadDatabase) : ResumeInfo :=
  let incomplete := get_incomplete_downloads (Some p_url) db in
  let completed := get_downloads_by_playlist p_url (Some "completed") db in
  let failed := get_downloads_by_playlist p_url (Some "failed") db in
  {| info_playlist_url := p_url;
     incomplete_count := length incomplete;
     completed_count := length completed;
     failed_count := length failed;
     total_count := (length incomplete + length completed + length failed)%nat;
     incomplete_downloads := incomplete;
     can_resume := (0 <? length incomplete)%nat |}.

(** The body of the loop of [prepare_resume_list]: a stuck "downloading"
    row is set back to "pending". [now] is the clock that
    [update_download_status] reads. *)
Definition prepare_step (now : Q) (db : Database.DownloadDatabase)
           (download : Database.DownloadRecord) : Database.DownloadDatabase :=
  if String.eqb (Database.status download) "downloading"
  then snd (Database.update_download_status
              now (Database.id download) "pending" None None db)
  else db.

(** [ResumeManager.prepare_resume_list]. *)
Definition prepare_resume_list (now : Q) (p_url : string)
           (db : Database.DownloadDatabase) : list string * Database.DownloadDatabase :=
  let incomplete := get_incomplete_downloads (Some p_url) db in
  (map Database.video_url incomplete, fold_left (prepare_step now) incomplete db).

(** The [WHERE] clause of [mark_for_retry]: [if video_ids:] is false for
    [None] and for the empty list, and then every failed row of the playlist
    is taken. *)
Definition marked (p_url : string) (video_ids : option (list string))
           (r : Database.DownloadRecord) : bool :=
  (String.eqb (Database.playlist_url r) p_url
   && match video_ids with
      | Some (v :: ids) => existsb (String.eqb (Database.video_id r)) (v :: ids)
      | _ => true
      end
   && String.eqb (Database.status r) "failed")%bool.

(** [SET status = 'pending', error_message = '', started_at = NULL]. *)
Definition reset_for_retry (r : Database.DownloadRecord) : Database.DownloadRecord :=
  {| Database.id := Database.id r; Database.playlist_url := Database.playlist_url r;
     Database.video_url := Database.video_url r; Database.video_id := Database.video_id r;
     Database.title := Database.title r; Database.filename := Database.filename r;
     Database.status := "pending"; Database.file_size := Database.file_size r;
     Database.downloaded_bytes := Database.downloaded_bytes r;
     Database.quality := Database.quality r; Database.format := Database.format r;
     Database.error_message := ""; Database.created_at := Database.created_at r;
     Database.started_at := None; Database.completed_at := Database.completed_at r;
     Database.metadata := Database.metadata r |}.

(** [ResumeManager.mark_for_retry], returning [cursor.rowcount]. *)
Definition mark_for_retry (p_url : string) (video_ids : option (list string))
           (db : Database.DownloadDatabase) : nat * Database.DownloadDatabase :=
  (length (List.filter (marked p_url video_ids) (rows db)),
   Database.with_downloads
     ((fun r => if marked p_url video_ids r then reset_for_retry r else r)
        <$> Database.downloads db) db).

(** The table is keyed by the [id] column, and [(playlist_url, video_id)]
    is unique: what the schema of [downloads] declares. *)
Definition store_wf (db : Database.DownloadDatabase) : Prop :=
  (forall k r, Database.downloads db !! k = Some r -> Database.id r = k)
  /\ (forall k1 k2 r1 r2,
         Database.downloads db !! k1 = Some r1 ->
         Database.downloads db !! k2 = Some r2 ->
         Database.playlist_url r1 = Database.playlist_url r2 ->
         Database.video_id r1 = Database.video_id r2 -> k1 = k2).

End Resume.

(** ** youtube_downloader.py: the resume path *)

Module ResumeRun.
Import ErrorHandling.

(** The [for future in as_completed(...)] loop of
    [_resume_playlist_download]: it counts and writes nothing. *)
Fixpoint resume_collect (futures : list (bool * result bool))
         (success_count failed_count : Z) : Z * Z :=
  match futures with
  | [] => (success_count, failed_count)
  | (shutdown_seen, job) :: rest =>
      if shutdown_seen then (success_count, failed_count)
      else
        match job with
        | Ok true => resume_collect rest (success_count + 1) failed_count
        | Ok false => resume_collect rest success_count (failed_count + 1)
        | Err _ | RaisedNone => resume_collect rest success_count (failed_count + 1)
        end
  end.

(** The [if self.database:] block of [_resume_playlist_download], which
    creates the session of the resumed run. *)
Definition start_resume_session (p_url : string)
           (incomplete_records : list Database.DownloadRecord)
           (new_session_id config_json : string)
           (d : Downloader.YouTubeDownloader) : Downloader.YouTubeDownloader :=
  match Downloader.database d with
  | Some db =>
      let (sid, db) := Database.create_download_session
                         (Downloader.clock d) new_session_id p_url
                         (Z.of_nat (length incomplete_records)) config_json db in
      Downloader.set_session_id (Some sid) (Downloader.set_database (Some db) d)
  | None => d
  end.

(** [YouTubeDownloader._resume_playlist_download]; [incomplete_records] is
    [resume_info['incomplete_downloads']], the other arguments are those of
    [Downloader.download_playlist]. *)
Definition _resume_playlist_download (p_url : string)
           (incomplete_records : list Database.DownloadRecord)
           (new_session_id config_json : string)
           (pool : list Database.DownloadRecord -> Downloader.YouTubeDownloader
                   -> list (bool * result bool) * Downloader.YouTubeDownloader)
           (d : Downloader.YouTubeDownloader) : bool * Downloader.YouTubeDownloader :=
  let d := start_resume_session p_url incomplete_records new_session_id config_json d in
  let (futures, d) := pool incomplete_records d in
  let (success_count, failed_count) := resume_collect futures 0 0 in
  let d :=
    match Downloader.session_id d with
    | Some sid =>
        Downloader.on_database
          (fun db =>
             Database.complete_session
               (Downloader.clock d) sid "completed"
               (Database.update_session_stats
                  sid (Some success_count) (Some failed_count) db)) d
    | None => d
    end in
  (failed_count =? 0, d).

(** [YouTubeDownloader.download_playlist] with its [resume] flag: the
    resume manager exists when the database does. *)
Definition download_playlist (p_url : string) (resume : bool)
           (extracted : option Downloader.Playlist)
           (new_session_id config_json : string)
           (pool : list Database.DownloadRecord -> Downloader.YouTubeDownloader
                   -> list (bool * result bool) * Downloader.YouTubeDownloader)
           (d : Downloader.YouTubeDownloader) : bool * Downloader.YouTubeDownloader :=
  match resume, Downloader.database d with
  | true, Some db =>
      let resume_info := Resume.get_resume_info p_url db in
      if Resume.can_resume resume_info then
        _resume_playlist_download p_url (Resume.incomplete_downloads resume_info)
                                  new_session_id config_json pool d
      else
        Downloader.download_playlist p_url extracted new_session_id config_json pool d
  | _, _ =>
      Downloader.download_playlist p_url extracted new_session_id config_json pool d
  end.

End ResumeRun.

(** ** Invariants of the reachable states *)

Module Invariants.
Import ErrorHandling.

(** What holds of a breaker built with threshold [th] and timeout [to]
    after any calls: it is closed exactly while fewer than [th] failures are
    counted, and when it is not closed the time of a failure is recorded. *)
Definition breaker_inv (th to : Z) (cb : CircuitBreaker) : Prop :=
  failure_threshold cb = th
  /\ timeout cb = to
  /\ 0 <= failure_count cb
  /\ (state cb = closed -> failure_count cb < th)
  /\ (state cb <> closed -> th <= failure_count cb /\ is_Some (last_failure_time cb)).

End Invariants.

(** * Properties *)

Import ErrorHandling.

(** ** Evaluations on small inputs *)

Example classify_unavailable :
  error_type (classify_ytdlp_error "ERROR: Video unavailable" "u") = VIDEO_UNAVAILABLE.
Proof. reflexivity. Qed.

Example classify_first_group_wins :
  error_type (classify_ytdlp_error "Too many requests: Connection reset" "u")
  = NETWORK_ERROR.
Proof. reflexivity. Qed.

Example classify_no_keyword :
  error_type (classify_ytdlp_error "Something odd happened" "u") = UNKNOWN.
Proof. reflexivity. Qed.

Example should_retry_default :
  should_retry (RetryConfig_default 3) (DownloadError_plain "x") 1 = true
  /\ should_retry (RetryConfig_default 3) (DownloadError_plain "x") 3 = false
  /\ should_retry (RetryConfig_default 3)
                  (mk_error VIDEO_UNAVAILABLE "Video unavailable" "u") 1 = false.
Proof. repeat split. Qed.

Example capped_delay_default :
  (capped_delay (RetryConfig_default 3) 1 == 1)%Q
  /\ (capped_delay (RetryConfig_default 3) 3 == 4)%Q
  /\ (capped_delay (RetryConfig_default 3) 10 == 60)%Q.
Proof. repeat split. Qed.

Example breaker_fifth_failure_opens :
  state <$> breaker_run (CircuitBreaker_init 5 300)
                        [RecordFailure 1; RecordFailure 2; RecordFailure 3;
                         RecordFailure 4]
  = Some closed
  /\ state <$> breaker_run (CircuitBreaker_init 5 300)
                           [RecordFailure 1; RecordFailure 2; RecordFailure 3;
                            RecordFailure 4; RecordFailure 5]
     = Some open.
Proof. split; reflexivity. Qed.

Example scenario_jobs :
  map (fun record => res (Downloader._download_single_video
                            Scenario.ydl_download record Scenario.fresh))
      (Downloader.download_records Scenario.playlist)
  = [Ok true;
     Err (mk_error VIDEO_UNAVAILABLE "ERROR: Video unavailable"
                   "https://youtube.com/watch?v=2");
     Ok true].
Proof. vm_compute. reflexivity. Qed.

(** ** Circuit breaker *)

Lemma Qltb_true (a b : Q) : Py.Qltb a b = true <-> (a < b)%Q.
Proof.
  unfold Py.Qltb. rewrite negb_true_iff, <- not_true_iff_false, Qle_bool_iff.
  split; [apply Qnot_le_lt | apply Qlt_not_le].
Qed.

Lemma Qltb_false (a b : Q) : Py.Qltb a b = false <-> (b <= a)%Q.
Proof.
  unfold Py.Qltb. rewrite negb_false_iff. apply Qle_bool_iff.
Qed.

Lemma record_failure_fields now cb :
  failure_threshold (record_failure now cb) = failure_threshold cb
  /\ timeout (record_failure now cb) = timeout cb
  /\ failure_count (record_failure now cb) = failure_count cb + 1
  /\ last_failure_time (record_failure now cb) = Some now.
Proof.
  unfold record_failure; cbn.
  destruct (failure_count cb + 1 >=? failure_threshold cb); cbn; [|done].
  destruct (state cb); done.
Qed.

Lemma record_failure_state now cb :
  state (record_failure now cb)
  = if failure_count cb + 1 >=? failure_threshold cb then open else state cb.
Proof.
  unfold record_failure; cbn.
  destruct (failure_count cb + 1 >=? failure_threshold cb); cbn; [|done].
  destruct (state cb); done.
Qed.

Lemma breaker_step_invariant cb c :
  breaker_wf cb ->
  match c, state cb with RecordSuccess, half_open => False | _, _ => True end ->
  exists cb', breaker_step cb c = Some cb'
    /\ breaker_wf cb'
    /\ failure_threshold cb' = failure_threshold cb
    /\ timeout cb' = timeout cb
    /\ failure_count cb' = failure_count cb + (if is_failure c then 1 else 0).
Proof.
  intros Hwf Hquiet. destruct c as [now| |now]; cbn.
  - unfold can_execute. destruct (state cb) eqn:Hst.
    + exists cb. cbn. repeat split; [done|lia].
    + destruct (Hwf Hst) as [t Ht]. rewrite Ht.
      destruct (Py.Qltb _ _); cbn.
      * eexists; split; [done|]. repeat split; cbn; [|lia].
        intros Hopen; discriminate Hopen.
      * exists cb. repeat split; [done|lia].
    + exists cb. cbn. repeat split; [done|lia].
  - exists (record_success cb). split; [done|].
    unfold record_success. destruct (state cb) eqn:Hst; [| |done].
    + repeat split; [done|lia].
    + repeat split; [done|lia].
  - exists (record_failure now cb). split; [done|].
    destruct (record_failure_fields now cb) as (Hth & Hto & Hfc & Hlf).
    repeat split; [|done|done|done].
    intros _. rewrite Hlf. by eexists.
Qed.

Lemma breaker_run_invariant calls : forall cb,
  breaker_wf cb ->
  no_success_in_half_open cb calls = true ->
  exists cb', breaker_run cb calls = Some cb'
    /\ breaker_wf cb'
    /\ failure_threshold cb' = failure_threshold cb
    /\ timeout cb' = timeout cb
    /\ failure_count cb' = failure_count cb + count_failures calls.
Proof.
  induction calls as [|c calls IH]; intros cb Hwf Hq.
  - exists cb. unfold count_failures; cbn. repeat split; [done|lia].
  - cbn in Hq. apply andb_true_iff in Hq as [Hc Hrest].
    destruct (breaker_step_invariant cb c Hwf) as (cb1 & Hstep & Hwf1 & Hth & Hto & Hfc).
    { destruct c; try done. destruct (state cb); done. }
    rewrite Hstep in Hrest.
    destruct (IH cb1 Hwf1 Hrest) as (cb' & Hrun & Hwf' & Hth' & Hto' & Hfc').
    exists cb'. cbn. rewrite Hstep. split; [done|].
    repeat split; [done|congruence|congruence|].
    rewrite Hfc', Hfc. unfold count_failures. cbn [List.filter].
    destruct c; cbn [is_failure length]; lia.
Qed.

Lemma breaker_run_app calls1 : forall cb calls2,
  breaker_run cb (calls1 ++ calls2)
  = match breaker_run cb calls1 with
    | Some cb' => breaker_run cb' calls2
    | None => None
    end.
Proof.
  induction calls1 as [|c calls1 IH]; intros cb calls2; cbn; [done|].
  destruct (breaker_step cb c); [apply IH|done].
Qed.

(** C4. Starting closed, once the [failure_threshold]-th [record_failure()]
    has been made (at time [t]), with any [can_execute()] calls in between and
    no [record_success()] made while half-open, the breaker is open;
    [can_execute()] then answers false as long as [now - t] does not exceed
    the timeout, and answers true, moving to half-open, once it does; a
    [record_success()] while half-open resets the count to 0 and closes. *)
Theorem breaker_opens_after_threshold (cb : CircuitBreaker)
        (calls : list breaker_call) (t : Q) :
  state cb = closed ->
  0 <= failure_count cb ->
  1 <= failure_threshold cb ->
  count_failures calls + 1 = failure_threshold cb ->
  no_success_in_half_open cb calls = true ->
  exists cb',
    breaker_run cb (calls ++ [RecordFailure t]) = Some cb'
    /\ state cb' = open
    /\ last_failure_time cb' = Some t
    /\ (forall now, (now - t <= inject_Z (timeout cb))%Q ->
                    can_execute now cb' = Some (false, cb'))
    /\ (forall now, (inject_Z (timeout cb) < now - t)%Q ->
                    can_execute now cb' = Some (true, set_state half_open cb'))
    /\ (forall now,
           state (record_success (set_state half_open cb')) = closed
           /\ failure_count (record_success (set_state half_open cb')) = 0
           /\ can_execute now (record_success (set_state half_open cb'))
              = Some (true, record_success (set_state half_open cb'))).
Proof.
  intros Hst Hcount Hth Hn Hq.
  destruct (breaker_run_invariant calls cb) as (cb1 & Hrun & Hwf1 & Hth1 & Hto1 & Hfc1);
    [by intros Hopen; rewrite Hst in Hopen|done|].
  exists (record_failure t cb1).
  destruct (record_failure_fields t cb1) as (Hth2 & Hto2 & Hfc2 & Hlf2).
  assert (Hopen : state (record_failure t cb1) = open).
  { rewrite record_failure_state.
    destruct (failure_count cb1 + 1 >=? failure_threshold cb1) eqn:Hge; [done|].
    rewrite Z.geb_leb in Hge. apply Z.leb_gt in Hge. lia. }
  rewrite breaker_run_app, Hrun. cbn.
  split; [done|]. split; [done|]. split; [done|].
  split; [|split].
  - intros now Hle. unfold can_execute. rewrite Hopen, Hlf2, Hto2, Hto1.
    by apply Qltb_false in Hle as ->.
  - intros now Hlt. unfold can_execute. rewrite Hopen, Hlf2, Hto2, Hto1.
    by apply Qltb_true in Hlt as ->.
  - intros now. done.
Qed.

Lemma breaker_opens_after_threshold_witness :
  let cb := CircuitBreaker_init 2 60 in
  let calls := [CanExecute 0; RecordFailure 1; RecordSuccess; CanExecute 2] in
  (state cb = closed /\ 0 <= failure_count cb /\ 1 <= failure_threshold cb
   /\ count_failures calls + 1 = failure_threshold cb
   /\ no_success_in_half_open cb calls = true)
  /\ exists cb',
      breaker_run cb (calls ++ [RecordFailure 3]) = Some cb'
      /\ state cb' = open
      /\ can_execute 63 cb' = Some (false, cb')
      /\ can_execute 64 cb' = Some (true, set_state half_open cb').
Proof.
  intros cb calls.
  split; [repeat split; try reflexivity; cbn; lia|].
  destruct (breaker_opens_after_threshold cb calls 3)
    as (cb' & Hrun & Hopen & _ & Hfalse & Htrue & _);
    [reflexivity|cbn; lia|cbn; lia|reflexivity|reflexivity|].
  exists cb'. split; [exact Hrun|]. split; [exact Hopen|]. split.
  - apply Hfalse. vm_compute. discriminate.
  - apply Htrue. vm_compute. reflexivity.
Defined.

(** C10. [record_success()] on a breaker that is not half-open changes
    nothing; in particular a success between two failures does not reset the
    count, so two failures separated by a success count as two and open the
    breaker when that reaches the threshold. *)
Theorem record_success_frame (cb : CircuitBreaker) :
  state cb <> half_open ->
  record_success cb = cb
  /\ forall t1 t2,
       let cb2 := record_failure t2 (record_success (record_failure t1 cb)) in
       failure_count cb2 = failure_count cb + 2
       /\ (failure_threshold cb <= failure_count cb + 2 -> state cb2 = open).
Proof.
  intros Hst.
  assert (Hframe : forall c, state c <> half_open -> record_success c = c).
  { intros c Hc. unfold record_success. destruct (state c); done. }
  split; [by apply Hframe|]. intros t1 t2.
  assert (Hst1 : state (record_failure t1 cb) <> half_open).
  { rewrite record_failure_state. destruct (_ >=? _); done. }
  rewrite (Hframe _ Hst1). cbn zeta.
  destruct (record_failure_fields t1 cb) as (Hth1 & _ & Hfc1 & _).
  destruct (record_failure_fields t2 (record_failure t1 cb)) as (_ & _ & Hfc2 & _).
  split; [lia|]. intros Hreach.
  rewrite record_failure_state, Hth1, Hfc1.
  destruct (_ >=? _) eqn:Hge; [done|].
  rewrite Z.geb_leb in Hge. apply Z.leb_gt in Hge. lia.
Qed.

Lemma record_success_frame_witness :
  let cb := CircuitBreaker_init 2 60 in
  state cb <> half_open
  /\ record_success cb = cb
  /\ state (record_failure 2 (record_success (record_failure 1 cb))) = open.
Proof.
  intros cb.
  assert (Hst : state cb <> half_open) by discriminate.
  destruct (record_success_frame cb Hst) as [Hframe Hrest].
  split; [exact Hst|]. split; [exact Hframe|].
  destruct (Hrest 1%Q 2%Q) as [_ Hopen]. apply Hopen. cbn. lia.
Defined.

(** ** Error classifier *)

Lemma prefix_trans (a : string) : forall b c,
  String.prefix a b = true -> String.prefix b c = true -> String.prefix a c = true.
Proof.
  induction a as [|x a IH]; intros b c Hab Hbc; [by destruct c|].
  destruct b as [|y b]; [done|]. destruct c as [|z c]; [done|].
  cbn in *. destruct (ascii_dec x y) as [->|]; [|done].
  destruct (ascii_dec y z) as [->|]; [|done]. eauto.
Qed.

(** A message that contains a phrase contains every prefix of the phrase. *)
Lemma contains_prefix (k1 k2 : string) : forall s,
  String.prefix k1 k2 = true -> Py.contains k2 s = true -> Py.contains k1 s = true.
Proof.
  induction s as [|c s IH]; intros Hp Hc.
  - change (Py.contains k2 "") with (String.prefix k2 "" || false)%bool in Hc.
    change (Py.contains k1 "") with (String.prefix k1 "" || false)%bool.
    rewrite orb_false_r in *. eauto using prefix_trans.
  - change (Py.contains k2 (String c s))
      with (String.prefix k2 (String c s) || Py.contains k2 s)%bool in Hc.
    change (Py.contains k1 (String c s))
      with (String.prefix k1 (String c s) || Py.contains k1 s)%bool.
    apply orb_true_iff in Hc as [Hc|Hc]; apply orb_true_iff;
      [left; eauto using prefix_trans|right; auto].
Qed.

Lemma any_in_intro (k : string) (keywords : list string) (s : string) :
  In k keywords -> Py.contains k s = true -> Py.any_in keywords s = true.
Proof. intros Hin Hc. apply existsb_exists. eauto. Qed.

Lemma classify_first_match (msg u : string) :
  error_type (classify_ytdlp_error msg u)
  = first_matching_group keyword_groups (Py.lower msg).
Proof.
  unfold classify_ytdlp_error, keyword_groups, first_matching_group.
  repeat (destruct (Py.any_in _ _); [reflexivity|]). reflexivity.
Qed.

(** C3, as the code has it. The kind of the classified error is that of the
    first keyword group, in the fixed order, with a keyword in the
    lower-cased message, and [UNKNOWN] when there is none. A message with
    "connection refused", "timeout" or "http error 5" is a network error;
    one with "http error 429" or "too many requests" and no network keyword
    is a quota error; one with "http error 403" or "forbidden" and no
    keyword of the three groups before is a permission error. *)
Theorem classify_by_keyword_groups (msg u : string) :
  let low := Py.lower msg in
  let kind := error_type (classify_ytdlp_error msg u) in
  message (classify_ytdlp_error msg u) = msg
  /\ kind = first_matching_group keyword_groups low
  /\ (Py.contains "connection refused" low = true
      \/ Py.contains "timeout" low = true
      \/ Py.contains "http error 5" low = true -> kind = NETWORK_ERROR)
  /\ (Py.any_in network_keywords low = false ->
      Py.contains "http error 429" low = true
      \/ Py.contains "too many requests" low = true -> kind = QUOTA_EXCEEDED)
  /\ (Py.any_in network_keywords low = false ->
      Py.any_in quota_keywords low = false ->
      Py.any_in unavailable_keywords low = false ->
      Py.contains "http error 403" low = true
      \/ Py.contains "forbidden" low = true -> kind = PERMISSION_ERROR)
  /\ ((forall group, In group keyword_groups -> Py.any_in group.1 low = false) ->
      kind = UNKNOWN).
Proof.
  intros low kind. split.
  { unfold classify_ytdlp_error. repeat (destruct (Py.any_in _ _); [reflexivity|]).
    reflexivity. }
  split; [apply classify_first_match|].
  subst kind. rewrite classify_first_match. fold low.
  unfold keyword_groups, first_matching_group.
  split; [|split; [|split]].
  - intros Hk.
    assert (Py.any_in network_keywords low = true) as ->; [|done].
    destruct Hk as [Hk|[Hk|Hk]].
    + apply (any_in_intro "connection"); [cbn; tauto|].
      by apply (contains_prefix _ "connection refused").
    + apply (any_in_intro "timeout"); [cbn; tauto|done].
    + apply (any_in_intro "http error 5"); [cbn; tauto|done].
  - intros -> Hk.
    assert (Py.any_in quota_keywords low = true) as ->; [|done].
    destruct Hk as [Hk|Hk].
    + apply (any_in_intro "http error 429"); [cbn; tauto|done].
    + apply (any_in_intro "too many requests"); [cbn; tauto|done].
  - intros -> -> -> Hk.
    assert (Py.any_in permission_keywords low = true) as ->; [|done].
    destruct Hk as [Hk|Hk].
    + apply (any_in_intro "http error 403"); [cbn; tauto|done].
    + apply (any_in_intro "forbidden"); [cbn; tauto|done].
  - intros Hnone.
    pose proof (Hnone (network_keywords, NETWORK_ERROR)) as H1.
    pose proof (Hnone (quota_keywords, QUOTA_EXCEEDED)) as H2.
    pose proof (Hnone (unavailable_keywords, VIDEO_UNAVAILABLE)) as H3.
    pose proof (Hnone (permission_keywords, PERMISSION_ERROR)) as H4.
    pose proof (Hnone (disk_keywords, DISK_FULL)) as H5.
    pose proof (Hnone (format_keywords, FORMAT_ERROR)) as H6.
    cbn [fst] in *.
    rewrite H1, H2, H3, H4, H5, H6 by (cbn; tauto). reflexivity.
Qed.

Lemma classify_by_keyword_groups_witness :
  error_type (classify_ytdlp_error "ERROR: HTTP Error 429: Too Many Requests" "")
  = QUOTA_EXCEEDED
  /\ error_type (classify_ytdlp_error "HTTP Error 403: Forbidden" "") = PERMISSION_ERROR.
Proof.
  split.
  - apply (classify_by_keyword_groups "ERROR: HTTP Error 429: Too Many Requests" "");
      [reflexivity|left; reflexivity].
  - apply (classify_by_keyword_groups "HTTP Error 403: Forbidden" "");
      [reflexivity|reflexivity|reflexivity|left; reflexivity].
Defined.

(** A message that contains "429" (likewise "403") and none of the
    keywords is classified [UNKNOWN], not as a quota (permission) error. *)
Lemma classify_bare_status_code_unknown :
  Py.contains "429" (Py.lower "Server replied 429") = true
  /\ error_type (classify_ytdlp_error "Server replied 429" "") = UNKNOWN
  /\ error_type (classify_ytdlp_error "Server replied 429" "") <> QUOTA_EXCEEDED
  /\ Py.contains "403" (Py.lower "Server replied 403") = true
  /\ error_type (classify_ytdlp_error "Server replied 403" "") <> PERMISSION_ERROR.
Proof. repeat split; try reflexivity; vm_compute; discriminate. Qed.

(** ** Back-off delay *)

Section CalculateDelay.
Context {W : Type} `{Runtime W}.
Variable config : RetryConfig.

Lemma calculate_delay_no_jitter (n : Z) (w : W) :
  jitter config = false -> calculate_delay config n w = (Qmax 0 (capped_delay config n), w).
Proof. intros Hj. unfold calculate_delay. by rewrite Hj. Qed.

Lemma calculate_delay_jitter (n : Z) (w : W) :
  jitter config = true ->
  calculate_delay config n w
  = (Qmax 0 (capped_delay config n + Py.uniform (- (capped_delay config n * (1 # 4))) (capped_delay config n * (1 # 4))
                                    (random w).1)%Q,
     (random w).2).
Proof. intros Hj. unfold calculate_delay. rewrite Hj. by destruct (random w). Qed.

Lemma uniform_quarter_bound (d r : Q) :
  (0 <= r <= 1)%Q ->
  (Qabs (Py.uniform (- (d * (1 # 4))) (d * (1 # 4)) r) <= Qabs d * (1 # 4))%Q.
Proof.
  intros [Hr0 Hr1]. unfold Py.uniform.
  apply Qabs_Qle_condition.
  destruct (Qlt_le_dec d 0) as [Hd|Hd].
  - rewrite (Qabs_neg d) by lra. split; nra.
  - rewrite (Qabs_pos d) by lra. split; nra.
Qed.

Lemma capped_mono (n m : Z) :
  (0 <= base_delay config)%Q -> (1 <= exponential_base config)%Q ->
  1 <= n <= m -> (capped_delay config n <= capped_delay config m)%Q.
Proof.
  intros Hb Hg Hnm. unfold capped_delay.
  apply Q.min_le_compat_r.
  assert (exponential_base config ^ (n - 1) <= exponential_base config ^ (m - 1))%Q
    by (apply Qpower_le_compat_l; [lia|done]).
  nra.
Qed.

Lemma capped_nonpos (n : Z) :
  (base_delay config <= 0)%Q -> (1 <= exponential_base config)%Q ->
  (capped_delay config n <= 0)%Q.
Proof.
  intros Hb Hg. unfold capped_delay.
  assert (0 <= exponential_base config ^ (n - 1))%Q by (apply Qpower_0_le; lra).
  apply Qle_trans with (base_delay config * exponential_base config ^ (n - 1))%Q;
    [apply Q.le_min_l|nra].
Qed.
End CalculateDelay.

(** C6, as the code has it. For an attempt number [n >= 1] the delay is
    [min(base_delay * exponential_base^(n-1), max_delay)], to which, with
    jitter, [uniform(-d/4, d/4)] is added (at most a quarter of [d] in
    absolute value), the whole clamped at 0. The result is never negative.
    Without jitter, and for a growth factor of at least 1, it is
    non-decreasing in [n] and stays below the (clamped) [max_delay]. *)
Theorem calculate_delay_bounds {W : Type} `{Runtime W}
        (config : RetryConfig) (n : Z) (w : W) :
  1 <= n ->
  let d := capped_delay config n in
  (jitter config = false -> calculate_delay config n w = (Qmax 0 d, w))
  /\ (jitter config = true ->
      let u := Py.uniform (- (d * (1 # 4))) (d * (1 # 4)) (random w).1 in
      calculate_delay config n w = (Qmax 0 (d + u)%Q, (random w).2)
      /\ ((0 <= (random w).1 <= 1)%Q -> (Qabs u <= Qabs d * (1 # 4))%Q))
  /\ (0 <= (calculate_delay config n w).1)%Q
  /\ (jitter config = false -> (1 <= exponential_base config)%Q ->
      forall (m : Z) (w' : W), n <= m ->
        ((calculate_delay config n w).1 <= (calculate_delay config m w').1)%Q
        /\ ((calculate_delay config m w').1 <= Qmax 0 (max_delay config))%Q).
Proof.
  intros Hn d. split; [by apply calculate_delay_no_jitter|].
  split; [|split].
  - intros Hj u. split; [by apply calculate_delay_jitter|].
    apply uniform_quarter_bound.
  - destruct (jitter config) eqn:Hj.
    + rewrite calculate_delay_jitter by done. apply Q.le_max_l.
    + rewrite calculate_delay_no_jitter by done. apply Q.le_max_l.
  - intros Hj Hg m w' Hm. rewrite !calculate_delay_no_jitter by done. cbn [fst].
    split.
    + destruct (Qlt_le_dec (base_delay config) 0) as [Hb|Hb].
      * rewrite (Q.max_l 0 (capped_delay config n)) by (apply capped_nonpos; lra).
        apply Q.le_max_l.
      * apply Q.max_le_compat_l. apply capped_mono; [done|done|lia].
    + apply Q.max_le_compat_l. apply Q.le_min_r.
Qed.

Lemma calculate_delay_bounds_witness :
  let w := Downloader.YouTubeDownloader_init 0 (fun _ => 1 # 2)%Q None ∅ in
  let config := RetryConfig_default 3 in
  1 <= 2
  /\ (0 <= (calculate_delay config 2 w).1)%Q
  /\ (Qabs (Py.uniform (- (capped_delay config 2 * (1 # 4)))
                       (capped_delay config 2 * (1 # 4)) (random w).1)
      <= Qabs (capped_delay config 2) * (1 # 4))%Q.
Proof.
  intros w config.
  assert (Hn : 1 <= 2) by lia.
  destruct (calculate_delay_bounds config 2 w Hn) as (_ & Hjit & Hpos & _).
  split; [exact Hn|]. split; [exact Hpos|].
  destruct (Hjit eq_refl) as [_ Hbound]. apply Hbound.
  vm_compute. split; discriminate.
Defined.

(** With a growth factor below 1 the delay decreases: for
    [RetryConfig(exponential_base=0.5, jitter=False)] the first delay is 1
    and the second 0.5. *)
Lemma calculate_delay_decreases_for_small_base :
  let w := Downloader.YouTubeDownloader_init 0 (fun _ => 0)%Q None ∅ in
  let config :=
    {| max_attempts := 3; base_delay := 1; max_delay := 60;
       exponential_base := 1 # 2; jitter := false;
       retryable_errors := [NETWORK_ERROR; QUOTA_EXCEEDED; UNKNOWN] |} in
  ((calculate_delay config 1 w).1 == 1)%Q
  /\ ((calculate_delay config 2 w).1 == 1 # 2)%Q
  /\ ~ ((calculate_delay config 1 w).1 <= (calculate_delay config 2 w).1)%Q.
Proof.
  intros w config. split; [reflexivity|]. split; [reflexivity|].
  vm_compute. intros Hle. apply Hle. reflexivity.
Qed.

(** ** Retry engine *)

Section RetryProperties.
Context {W : Type} `{Runtime W} {A : Type}.
Variable config : RetryConfig.
Variable func : W -> outcome A * W.

Lemma should_retry_true (e : DownloadError) (attempt : Z) :
  should_retry config e attempt = true
  <-> attempt < max_attempts config /\ retryable config e = true.
Proof.
  unfold should_retry, retryable. rewrite Z.geb_leb.
  destruct (max_attempts config <=? attempt) eqn:Hle.
  - apply Z.leb_le in Hle. split; [done|lia].
  - apply Z.leb_gt in Hle. tauto.
Qed.

Lemma retry_from_failing (remaining : nat) :
  forall (attempt : Z) (last_error : option DownloadError) (w : W),
    (1 <= remaining)%nat ->
    Z.of_nat remaining = max_attempts config - attempt + 1 ->
    let r := retry_from config func remaining attempt last_error w in
    (forall a, res r <> Ok a) ->
    let errors := failures (trace r) in
    attempts (trace r) = Z.of_nat (length errors)
    /\ attempts (trace r)
       = match first_non_retryable config errors attempt with
         | Some k => Z.min (max_attempts config) k
         | None => max_attempts config
         end - attempt + 1
    /\ Z.of_nat (length (sleeps (trace r))) = attempts (trace r) - 1
    /\ exists e, last errors = Some e /\ res r = Err e.
Proof.
  induction remaining as [|k IH]; intros attempt last_error w Hpos Hrem; [lia|].
  intros r Hno errors. subst errors r.
  cbn [retry_from] in *. destruct (func w) as [[a|x] w1].
  { by destruct (Hno a). }
  destruct (should_retry config (caught x) attempt) eqn:Hsr; cbn [negb] in *.
  - apply should_retry_true in Hsr as [Hlt Hretry].
    apply Z.ltb_lt in Hlt as Hltb. rewrite Hltb in *.
    destruct (calculate_delay config attempt w1) as [delay w2].
    destruct (IH (attempt + 1) (Some (caught x)) (sleep delay w2))
      as (Ha & Hb & Hc & e & Hl & He); [lia|lia|exact Hno|].
    cbn [emit trace res app] in *.
    set (rest := retry_from config func k (attempt + 1) (Some (caught x))
                            (sleep delay w2)) in *.
    unfold attempts, failures, sleeps in *.
    cbn [List.filter flat_map app length first_non_retryable] in *.
    rewrite Hretry. repeat split; [lia|lia|lia|].
    exists e. split; [|done].
    destruct (flat_map _ (trace rest)); [done|]. exact Hl.
  - cbn.
    assert (Hcase : attempt = max_attempts config \/ retryable config (caught x) = false).
    { destruct (retryable config (caught x)) eqn:Hr; [left|by right].
      destruct (Z.lt_ge_cases attempt (max_attempts config)) as [Hlt|Hge]; [|lia].
      assert (should_retry config (caught x) attempt = true)
        by (by apply should_retry_true).
      congruence. }
    change (attempts [Attempt attempt (Some (caught x))]) with 1.
    repeat split; [|by eexists].
    destruct (retryable config (caught x)); [|lia].
    destruct Hcase as [->|]; [lia|done].
Qed.
End RetryProperties.

(** C5. When no attempt of the operation succeeds, [retry] calls it exactly
    [min(max_attempts, k)] times, [k] being the number of the first attempt
    whose classified error is not retryable ([max_attempts] times when
    there is none); it sleeps between attempts only, and what it raises is the
    classified error of the last attempt. *)
Theorem retry_attempt_count {W : Type} `{Runtime W} {A : Type}
        (config : RetryConfig) (func : W -> outcome A * W) (w : W) :
  1 <= max_attempts config ->
  let r := retry config func w in
  (forall a, res r <> Ok a) ->
  let errors := failures (trace r) in
  attempts (trace r) = Z.of_nat (length errors)
  /\ attempts (trace r)
     = match first_non_retryable config errors 1 with
       | Some k => Z.min (max_attempts config) k
       | None => max_attempts config
       end
  /\ Z.of_nat (length (sleeps (trace r))) = attempts (trace r) - 1
  /\ exists e, last errors = Some e /\ res r = Err e.
Proof.
  intros Hmax r Hno errors.
  destruct (retry_from_failing config func (Z.to_nat (max_attempts config))
                               1 None w) as (Ha & Hb & Hc & Hd);
    [lia|lia|exact Hno|].
  split; [exact Ha|]. split; [|split; [exact Hc|exact Hd]].
  etransitivity; [exact Hb|].
  destruct (first_non_retryable config _ 1); lia.
Qed.

Lemma retry_attempt_count_witness :
  let w := Downloader.YouTubeDownloader_init 0 (fun _ => 1 # 2)%Q None ∅ in
  let record := Database.DownloadRecord_new 0 "a1" "list" "video-1" "v1" "One"
                                            "One.mp4" "pending" "720" "mp4" in
  let func := Downloader.download_single_video_body
                (fun _ d => (Some "Connection reset by peer", d)) record in
  let r := retry (RetryConfig_default 3) func w in
  1 <= max_attempts (RetryConfig_default 3)
  /\ (forall a, res r <> Ok a)
  /\ attempts (trace r) = Z.of_nat (length (failures (trace r)))
  /\ Z.of_nat (length (sleeps (trace r))) = attempts (trace r) - 1.
Proof.
  intros w record func r.
  assert (Hmax : 1 <= max_attempts (RetryConfig_default 3)) by (cbn; lia).
  assert (Hno : forall a, res r <> Ok a) by (intros a; vm_compute; discriminate).
  destruct (retry_attempt_count (RetryConfig_default 3) func w Hmax Hno)
    as (Ha & _ & Hs & _).
  split; [exact Hmax|]. split; [exact Hno|]. split; [exact Ha|exact Hs].
Defined.

Section PersistentFailure.
Context {W : Type} `{Runtime W} {A : Type}.
Variable config : RetryConfig.
Variable func : W -> outcome A * W.
(** A condition on the world under which the function keeps failing with
    a retryable error, and which sleeping and drawing do not undo. *)
Variable stuck : W -> Prop.
Variable expected : DownloadError -> Prop.
Hypothesis expected_retryable : forall e, expected e -> retryable config e = true.
Hypothesis func_stuck :
  forall w, stuck w ->
    exists x w', func w = (Raised x, w') /\ stuck w' /\ expected (caught x).
Hypothesis sleep_stuck : forall delay w, stuck w -> stuck (sleep delay w).
Hypothesis random_stuck : forall w, stuck w -> stuck (random w).2.

Lemma calculate_delay_stuck (n : Z) (w : W) :
  stuck w -> stuck (calculate_delay config n w).2.
Proof.
  intros Hw. unfold calculate_delay. destruct (jitter config); [|done].
  specialize (random_stuck w Hw). by destruct (random w).
Qed.

Lemma retry_from_stuck (remaining : nat) :
  forall (attempt : Z) (last_error : option DownloadError) (w : W),
    stuck w ->
    (1 <= remaining)%nat ->
    Z.of_nat remaining = max_attempts config - attempt + 1 ->
    let r := retry_from config func remaining attempt last_error w in
    attempts (trace r) = Z.of_nat remaining
    /\ Z.of_nat (length (sleeps (trace r))) = Z.of_nat remaining - 1
    /\ (exists e, res r = Err e /\ expected e)
    /\ stuck (world r).
Proof.
  induction remaining as [|k IH]; intros attempt last_error w Hw Hpos Hrem; [lia|].
  intros r. subst r. cbn [retry_from].
  destruct (func_stuck w Hw) as (x & w1 & -> & Hw1 & Hexp).
  pose proof (expected_retryable _ Hexp) as Hretry.
  destruct (should_retry config (caught x) attempt) eqn:Hsr; cbn [negb].
  - apply should_retry_true in Hsr as [Hlt _].
    apply Z.ltb_lt in Hlt as Hltb. rewrite Hltb.
    pose proof (calculate_delay_stuck attempt w1 Hw1) as Hw2.
    destruct (calculate_delay config attempt w1) as [delay w2]. cbn [snd] in Hw2.
    destruct (IH (attempt + 1) (Some (caught x)) (sleep delay w2))
      as (Ha & Hs & He & Hst); [by apply sleep_stuck|lia|lia|].
    cbn [emit trace res world app].
    unfold attempts, sleeps in *. cbn [List.filter flat_map app length].
    split; [lia|]. split; [lia|]. split; [done|done].
  - assert (attempt = max_attempts config).
    { destruct (Z.lt_ge_cases attempt (max_attempts config)) as [Hlt|Hge]; [|lia].
      assert (should_retry config (caught x) attempt = true)
        by (by apply should_retry_true).
      congruence. }
    cbn [trace res world]. unfold attempts, sleeps.
    cbn [List.filter flat_map length app].
    split; [lia|]. split; [lia|]. split; [by eexists|done].
Qed.
End PersistentFailure.

(** When the first attempt fails with an error the policy retries, the
    engine sleeps and calls the function a second time. *)
Lemma retry_second_attempt {W : Type} `{Runtime W} {A : Type}
      (config : RetryConfig) (func : W -> outcome A * W) (w w1 : W) (x : raised) :
  func w = (Raised x, w1) ->
  should_retry config (caught x) 1 = true ->
  exists delay f rest,
    trace (retry config func w)
    = Attempt 1 (Some (caught x)) :: Sleep delay :: Attempt 2 f :: rest.
Proof.
  intros Hf Hsr. pose proof Hsr as Hsr'.
  apply should_retry_true in Hsr' as [Hlt _].
  unfold retry.
  destruct (Z.to_nat (max_attempts config)) as [|[|k]] eqn:Hn; [lia|lia|].
  cbn [retry_from]. rewrite Hf, Hsr. cbn [negb].
  apply Z.ltb_lt in Hlt as ->.
  destruct (calculate_delay config 1 w1) as [delay w2].
  cbn [emit trace app]. change (1 + 1) with 2.
  exists delay.
  destruct (func (sleep delay w2)) as [[a|y] w3].
  { by exists None, []. }
  destruct (negb (should_retry config (caught y) 2)).
  { by exists (Some (caught y)), []. }
  destruct (2 <? max_attempts config).
  - destruct (calculate_delay config 2 w3) as [delay' w4].
    cbn [emit trace app]. by eexists _, _.
  - cbn [emit trace app]. by eexists _, _.
Qed.

(** ** Blocked attempts and shutdown *)

Section Guards.
Import Downloader.
Variable ydl_download : string -> YouTubeDownloader -> option string * YouTubeDownloader.
Variable record : Database.DownloadRecord.

Lemma set_circuit_breaker_same (d : YouTubeDownloader) :
  set_circuit_breaker (circuit_breaker d) d = d.
Proof. by destruct d. Qed.

Lemma can_execute_false (now : Q) (cb cb' : CircuitBreaker) :
  can_execute now cb = Some (false, cb') -> cb' = cb.
Proof.
  unfold can_execute. destruct (state cb); [done| |done].
  destruct (last_failure_time cb); [|done].
  destruct (Py.Qltb _ _); [done|]. by intros [= <-].
Qed.

Lemma body_circuit_open (d : YouTubeDownloader) (cb : CircuitBreaker) :
  can_execute (clock d) (circuit_breaker d) = Some (false, cb) ->
  download_single_video_body ydl_download record d
  = (Raised (RaisedDownloadError (DownloadError_plain circuit_open_message)), d).
Proof.
  intros Hc. unfold download_single_video_body. rewrite Hc. cbn [negb].
  apply can_execute_false in Hc as ->. by rewrite set_circuit_breaker_same.
Qed.

Lemma body_shutdown (d : YouTubeDownloader) (cb : CircuitBreaker) :
  can_execute (clock d) (circuit_breaker d) = Some (true, cb) ->
  shutdown_requested (graceful_shutdown d) = true ->
  download_single_video_body ydl_download record d
  = (Raised (RaisedDownloadError (DownloadError_plain shutdown_message)),
     set_circuit_breaker cb d).
Proof.
  intros Hc Hs. unfold download_single_video_body. rewrite Hc. cbn [negb].
  unfold is_shutdown_requested. cbn [graceful_shutdown set_circuit_breaker].
  by rewrite Hs.
Qed.

(** Once shutdown is requested, an attempt raises at one of its guards; it
    touches nothing but the breaker. *)
Lemma body_after_shutdown (d : YouTubeDownloader) :
  shutdown_requested (graceful_shutdown d) = true ->
  exists x cb,
    download_single_video_body ydl_download record d
    = (Raised x, set_circuit_breaker cb d)
    /\ error_type (caught x) = UNKNOWN
    /\ (x = RaisedException none_operand_message
        \/ x = RaisedDownloadError (DownloadError_plain circuit_open_message)
        \/ x = RaisedDownloadError (DownloadError_plain shutdown_message)).
Proof.
  intros Hs.
  destruct (can_execute (clock d) (circuit_breaker d)) as [[[|] cb]|] eqn:Hc.
  - rewrite (body_shutdown d cb Hc Hs). eexists _, _. split; [done|]. split; [done|tauto].
  - rewrite (body_circuit_open d cb Hc). eexists _, (circuit_breaker d).
    rewrite set_circuit_breaker_same. split; [done|]. split; [done|tauto].
  - unfold download_single_video_body. rewrite Hc. eexists _, (circuit_breaker d).
    rewrite set_circuit_breaker_same. split; [done|]. split; [|tauto].
    vm_compute. reflexivity.
Qed.

Lemma job_after_shutdown (d : YouTubeDownloader) :
  shutdown_requested (graceful_shutdown d) = true ->
  let r := _download_single_video ydl_download record d in
  attempts (trace r) = 3
  /\ length (sleeps (trace r)) = 2%nat
  /\ (exists e, res r = Err e /\ error_type e = UNKNOWN)
  /\ shutdown_requested (graceful_shutdown (world r)) = true.
Proof.
  intros Hs r.
  set (stuck := fun w : YouTubeDownloader =>
                  shutdown_requested (graceful_shutdown w) = true).
  set (expected := fun e : DownloadError => error_type e = UNKNOWN).
  assert (Hexp : forall e, expected e -> retryable (RetryConfig_default 3) e = true).
  { intros e He. unfold retryable. by rewrite He. }
  assert (Hfunc : forall w, stuck w ->
            exists x w', download_single_video_body ydl_download record w = (Raised x, w')
                         /\ stuck w' /\ expected (caught x)).
  { intros w Hw. destruct (body_after_shutdown w Hw) as (x & cb & Hb & Hk & _).
    by exists x, (set_circuit_breaker cb w). }
  assert (Hsleep : forall delay w, stuck w -> stuck (sleep delay w)) by done.
  assert (Hrandom : forall w, stuck w -> stuck (random w).2) by done.
  destruct (retry_from_stuck (RetryConfig_default 3) _ stuck expected Hexp Hfunc
              Hsleep Hrandom 3%nat 1 None d Hs)
    as (Ha & Hsl & He & Hw); [lia|done|].
  split; [exact Ha|]. split; [|exact (conj He Hw)].
  apply Nat2Z.inj. exact Hsl.
Qed.
End Guards.

(** C2, as the code has it. An attempt the breaker refuses raises a plain
    [DownloadError] ("Circuit breaker is open ..."), one stopped by a
    requested shutdown raises "Shutdown requested"; both are of kind
    [UNKNOWN], which the decorator's default policy retries: the engine sleeps
    and calls the function a second time, and while shutdown stays requested
    the job makes all 3 attempts with 2 sleeps before the error is raised. *)
Theorem blocked_attempt_is_retried
        (ydl_download : string -> Downloader.YouTubeDownloader
                        -> option string * Downloader.YouTubeDownloader)
        (record : Database.DownloadRecord) (d : Downloader.YouTubeDownloader) :
  let body := Downloader.download_single_video_body ydl_download record in
  let job := Downloader._download_single_video ydl_download record in
  let circuit_open := DownloadError_plain Downloader.circuit_open_message in
  let shutdown := DownloadError_plain Downloader.shutdown_message in
  (forall cb,
      can_execute (Downloader.clock d) (Downloader.circuit_breaker d) = Some (false, cb) ->
      body d = (Raised (RaisedDownloadError circuit_open), d)
      /\ exists delay f rest,
          trace (job d) = Attempt 1 (Some circuit_open) :: Sleep delay :: Attempt 2 f :: rest)
  /\ (forall cb,
         can_execute (Downloader.clock d) (Downloader.circuit_breaker d) = Some (true, cb) ->
         shutdown_requested (Downloader.graceful_shutdown d) = true ->
         body d = (Raised (RaisedDownloadError shutdown), Downloader.set_circuit_breaker cb d)
         /\ exists delay f rest,
             trace (job d) = Attempt 1 (Some shutdown) :: Sleep delay :: Attempt 2 f :: rest)
  /\ error_type circuit_open = UNKNOWN
  /\ error_type shutdown = UNKNOWN
  /\ (shutdown_requested (Downloader.graceful_shutdown d) = true ->
      attempts (trace (job d)) = 3
      /\ length (sleeps (trace (job d))) = 2%nat
      /\ exists e, res (job d) = Err e /\ error_type e = UNKNOWN).
Proof.
  intros body job circuit_open shutdown.
  split; [|split; [|split; [done|split; [done|]]]].
  - intros cb Hc.
    pose proof (body_circuit_open ydl_download record d cb Hc) as Hb.
    split; [exact Hb|].
    apply (retry_second_attempt (RetryConfig_default 3) body d d
                                (RaisedDownloadError circuit_open)); [exact Hb|done].
  - intros cb Hc Hs.
    pose proof (body_shutdown ydl_download record d cb Hc Hs) as Hb.
    split; [exact Hb|].
    apply (retry_second_attempt (RetryConfig_default 3) body d
                                (Downloader.set_circuit_breaker cb d)
                                (RaisedDownloadError shutdown)); [exact Hb|done].
  - intros Hs.
    destruct (job_after_shutdown ydl_download record d Hs) as (Ha & Hsl & He & _).
    done.
Qed.

Lemma blocked_attempt_is_retried_witness :
  let d :=
    Downloader.set_circuit_breaker
      {| failure_threshold := 5; timeout := 300; failure_count := 5;
         last_failure_time := Some 0%Q; state := open |}
      (Downloader.YouTubeDownloader_init 10 (fun _ => 1 # 2)%Q None ∅) in
  let record := Database.DownloadRecord_new 0 "a1" "list" "video-1" "v1" "One"
                                            "One.mp4" "pending" "720" "mp4" in
  let ydl_download := fun (_ : string) (w : Downloader.YouTubeDownloader) =>
                        (@None string, w) in
  can_execute (Downloader.clock d) (Downloader.circuit_breaker d)
  = Some (false, Downloader.circuit_breaker d)
  /\ exists delay f rest,
      trace (Downloader._download_single_video ydl_download record d)
      = Attempt 1 (Some (DownloadError_plain Downloader.circuit_open_message))
          :: Sleep delay :: Attempt 2 f :: rest.
Proof.
  intros d record ydl_download.
  assert (Hc : can_execute (Downloader.clock d) (Downloader.circuit_breaker d)
               = Some (false, Downloader.circuit_breaker d)) by reflexivity.
  split; [exact Hc|].
  destruct (blocked_attempt_is_retried ydl_download record d) as (Hopen & _).
  destruct (Hopen _ Hc) as [_ Htrace]. exact Htrace.
Defined.

(** A job the open breaker blocks is attempted three times, with two
    back-off sleeps in between, before its error reaches the caller. *)
Lemma circuit_open_job_retried :
  let d :=
    Downloader.set_circuit_breaker
      {| failure_threshold := 5; timeout := 300; failure_count := 5;
         last_failure_time := Some 0%Q; state := open |}
      (Downloader.YouTubeDownloader_init 10 (fun _ => 1 # 2)%Q None ∅) in
  let record := Database.DownloadRecord_new 0 "a1" "list" "video-1" "v1" "One"
                                            "One.mp4" "pending" "720" "mp4" in
  let ydl_download := fun (_ : string) (w : Downloader.YouTubeDownloader) =>
                        (@None string, w) in
  let r := Downloader._download_single_video ydl_download record d in
  can_execute (Downloader.clock d) (Downloader.circuit_breaker d)
  = Some (false, Downloader.circuit_breaker d)
  /\ res r = Err (DownloadError_plain Downloader.circuit_open_message)
  /\ attempts (trace r) = 3
  /\ length (sleeps (trace r)) = 2%nat
  /\ forallb (Py.Qltb 0) (sleeps (trace r)) = true
  /\ ~ (attempts (trace r) = 1 /\ sleeps (trace r) = []).
Proof.
  intros d record ydl_download r.
  split; [reflexivity|]. split; [vm_compute; reflexivity|].
  split; [vm_compute; reflexivity|]. split; [vm_compute; reflexivity|].
  split; [vm_compute; reflexivity|].
  intros [Hone _]. vm_compute in Hone. discriminate Hone.
Qed.

(** C9, as the code has it. Once shutdown is requested, an attempt of a job
    raises at its guard whatever the collaborator would do: the fetch is not
    started and nothing but the breaker is touched; the result loop stops at
    the first future it sees after the request. The retry engine does not look
    at the flag: the job still makes its 3 attempts with 2 back-off sleeps.
    Requesting shutdown leaves the set of active downloads as it is. *)
Theorem shutdown_blocks_fetch_not_backoff
        (ydl_download ydl_download' : string -> Downloader.YouTubeDownloader
                                      -> option string * Downloader.YouTubeDownloader)
        (record : Database.DownloadRecord) (d : Downloader.YouTubeDownloader) :
  shutdown_requested (Downloader.graceful_shutdown d) = true ->
  let body := Downloader.download_single_video_body ydl_download record in
  let job := Downloader._download_single_video ydl_download record in
  body d = Downloader.download_single_video_body ydl_download' record d
  /\ (exists x cb, body d = (Raised x, Downloader.set_circuit_breaker cb d))
  /\ (forall future rest success_count failed_count,
         Downloader.collect ((true, future) :: rest) success_count failed_count d
         = (success_count, failed_count, d))
  /\ attempts (trace (job d)) = 3
  /\ length (sleeps (trace (job d))) = 2%nat
  /\ (forall g, active_downloads (request_shutdown g) = active_downloads g).
Proof.
  intros Hs body job. split; [|split; [|split; [done|]]].
  - subst body.
    destruct (can_execute (Downloader.clock d) (Downloader.circuit_breaker d))
      as [[[|] cb]|] eqn:Hc.
    + by rewrite !(body_shutdown _ record d cb Hc Hs).
    + by rewrite !(body_circuit_open _ record d cb Hc).
    + unfold Downloader.download_single_video_body. by rewrite Hc.
  - destruct (body_after_shutdown ydl_download record d Hs) as (x & cb & Hb & _).
    by exists x, cb.
  - destruct (job_after_shutdown ydl_download record d Hs) as (Ha & Hsl & _).
    done.
Qed.

Lemma shutdown_blocks_fetch_not_backoff_witness :
  let d :=
    Downloader.set_graceful_shutdown
      (request_shutdown GracefulShutdown_init)
      (Downloader.YouTubeDownloader_init 0 (fun _ => 1 # 2)%Q None ∅) in
  let record := Database.DownloadRecord_new 0 "a1" "list" "video-1" "v1" "One"
                                            "One.mp4" "pending" "720" "mp4" in
  let succeeds := fun (_ : string) (w : Downloader.YouTubeDownloader) =>
                    (@None string, w) in
  let fails := fun (_ : string) (w : Downloader.YouTubeDownloader) =>
                 (Some "disk full", w) in
  shutdown_requested (Downloader.graceful_shutdown d) = true
  /\ Downloader.download_single_video_body succeeds record d
     = Downloader.download_single_video_body fails record d
  /\ length (sleeps (trace (Downloader._download_single_video succeeds record d))) = 2%nat.
Proof.
  intros d record succeeds fails.
  assert (Hs : shutdown_requested (Downloader.graceful_shutdown d) = true)
    by reflexivity.
  destruct (shutdown_blocks_fetch_not_backoff succeeds fails record d Hs)
    as (Hsame & _ & _ & _ & Hsl & _).
  split; [exact Hs|]. split; [exact Hsame|exact Hsl].
Defined.

(** Shutdown is requested while the first fetch of a job is in flight, and
    the fetch then fails on the network: the engine still sleeps before the
    second attempt and again before the third. *)
Lemma backoff_sleeps_after_shutdown :
  let d := Downloader.YouTubeDownloader_init 0 (fun _ => 1 # 2)%Q None ∅ in
  let record := Database.DownloadRecord_new 0 "a1" "list" "video-1" "v1" "One"
                                            "One.mp4" "pending" "720" "mp4" in
  let ydl_download := fun (_ : string) (w : Downloader.YouTubeDownloader) =>
    (Some "Connection reset by peer",
     Downloader.set_graceful_shutdown
       (request_shutdown (Downloader.graceful_shutdown w)) w) in
  let r := Downloader._download_single_video ydl_download record d in
  shutdown_requested
    (Downloader.graceful_shutdown
       (Downloader.download_single_video_body ydl_download record d).2) = true
  /\ map error_type (failures (trace r)) = [NETWORK_ERROR; UNKNOWN; UNKNOWN]
  /\ map message (failures (trace r))
     = ["Connection reset by peer"; Downloader.shutdown_message;
        Downloader.shutdown_message]
  /\ length (sleeps (trace r)) = 2%nat
  /\ forallb (Py.Qltb 0) (sleeps (trace r)) = true
  /\ sleeps (trace r) <> [].
Proof.
  intros d record ydl_download r.
  split; [vm_compute; reflexivity|]. split; [vm_compute; reflexivity|].
  split; [vm_compute; reflexivity|]. split; [vm_compute; reflexivity|].
  split; [vm_compute; reflexivity|].
  intros Hnil. apply (f_equal (@length Q)) in Hnil. vm_compute in Hnil. discriminate Hnil.
Qed.

(** ** Job store *)

(** C7, as the code has it. [update_download_status] rewrites at most the
    row of the given id and answers whether that row exists. It always sets
    the status. With "downloading" it stamps [started_at] (and stores the
    byte count) exactly when a byte count is passed, and leaves [started_at]
    alone otherwise; with "completed" it stamps [completed_at]; with "failed"
    it stores the error message when one that is not empty is passed. *)
Theorem update_download_status_partial
        (now : Q) (download_id new_status : string)
        (bytes : option Z) (error : option string) (db : Database.DownloadDatabase) :
  let out := Database.update_download_status now download_id new_status bytes error db in
  (out.1 = true <-> is_Some (Database.downloads db !! download_id))
  /\ Database.download_sessions out.2 = Database.download_sessions db
  /\ (forall other, other <> download_id ->
        Database.downloads out.2 !! other = Database.downloads db !! other)
  /\ (forall row, Database.downloads db !! download_id = Some row ->
      exists row',
        Database.downloads out.2 !! download_id = Some row'
        /\ Database.status row' = new_status
        /\ Database.id row' = Database.id row
        /\ Database.playlist_url row' = Database.playlist_url row
        /\ Database.video_id row' = Database.video_id row
        /\ Database.created_at row' = Database.created_at row
        /\ (new_status = "downloading" -> forall n, bytes = Some n ->
            Database.started_at row' = Some now
            /\ Database.downloaded_bytes row' = n)
        /\ (new_status = "downloading" -> bytes = None ->
            Database.started_at row' = Database.started_at row
            /\ Database.downloaded_bytes row' = Database.downloaded_bytes row)
        /\ (new_status = "completed" -> Database.completed_at row' = Some now)
        /\ (new_status = "failed" -> forall c m, error = Some (String c m) ->
            Database.error_message row' = String c m)
        /\ (new_status = "failed" -> Py.truthy error = false ->
            Database.error_message row' = Database.error_message row)).
Proof.
  intros out. subst out. unfold Database.update_download_status.
  destruct (Database.downloads db !! download_id) as [row|] eqn:Hrow; cbn [fst snd].
  - split; [split; [by eexists|done]|]. split; [done|].
    split; [intros other Hne; cbn; by rewrite lookup_insert_ne|].
    intros ? [= <-]. eexists. split; [cbn; apply lookup_insert_eq|].
    unfold Database.status_updates.
    split; [by destruct (String.eqb new_status "downloading"), bytes;
            repeat (destruct (_ : bool))|].
    split; [by destruct (String.eqb new_status "downloading"), bytes;
            repeat (destruct (_ : bool))|].
    split; [by destruct (String.eqb new_status "downloading"), bytes;
            repeat (destruct (_ : bool))|].
    split; [by destruct (String.eqb new_status "downloading"), bytes;
            repeat (destruct (_ : bool))|].
    split; [by destruct (String.eqb new_status "downloading"), bytes;
            repeat (destruct (_ : bool))|].
    split; [by intros -> n ->|]. split; [by intros -> ->|].
    split; [by intros ->; destruct bytes|].
    split; [by intros -> c m ->; destruct bytes|].
    intros -> Ht. destruct bytes; cbn; by rewrite Ht.
  - split; [split; [done|by intros [? ?]]|]. split; [done|]. split; [done|done].
Qed.

Lemma update_download_status_partial_witness :
  let row := Database.DownloadRecord_new 0 "a1" "list" "video-1" "v1" "One"
                                         "One.mp4" "pending" "720" "mp4" in
  let db := {| Database.downloads := {["a1" := row]};
               Database.download_sessions := ∅ |} in
  (Database.update_download_status 7 "a1" "completed" None None db).1 = true
  /\ (Database.update_download_status 7 "zz" "completed" None None db).1 <> true.
Proof.
  intros row db. split.
  - apply (update_download_status_partial 7 "a1" "completed" None None db).
    by exists row.
  - intros Hyes.
    apply (update_download_status_partial 7 "zz" "completed" None None db) in Hyes.
    destruct Hyes as [? Hrow]. vm_compute in Hrow. discriminate Hrow.
Defined.

(** The call the worker makes when it claims a job,
    [update_download_status(record.id, 'downloading')], sets the status and
    does not stamp [started_at]. *)
Lemma downloading_without_bytes_not_stamped :
  let row := Database.DownloadRecord_new 0 "a1" "list" "video-1" "v1" "One"
                                         "One.mp4" "pending" "720" "mp4" in
  let db := {| Database.downloads := {["a1" := row]};
               Database.download_sessions := ∅ |} in
  let out := Database.update_download_status 7 "a1" "downloading" None None db in
  out.1 = true
  /\ Database.status <$> (Database.downloads out.2 !! "a1") = Some "downloading"
  /\ Database.started_at <$> (Database.downloads out.2 !! "a1") = Some None
  /\ Database.started_at <$> (Database.downloads out.2 !! "a1") <> Some (Some 7%Q).
Proof.
  intros row db out. split; [reflexivity|]. split; [vm_compute; reflexivity|].
  split; [vm_compute; reflexivity|]. vm_compute. discriminate.
Qed.

Lemma expired_spec (cutoff_time : Q) (row : Database.SessionRow) :
  Database.expired cutoff_time row = true
  <-> (Database.session_status row = "completed"
       \/ Database.session_status row = "cancelled")
      /\ exists t, Database.session_completed_at row = Some t /\ (t < cutoff_time)%Q.
Proof.
  unfold Database.expired.
  rewrite andb_true_iff, orb_true_iff, !String.eqb_eq.
  destruct (Database.session_completed_at row) as [t|].
  - rewrite Qltb_true. split.
    + intros [Hs Ht]. split; [done|by exists t].
    + intros [Hs (t' & [= <-] & Ht)]. done.
  - split; [by intros [_ ?]|by intros [_ (t & ? & _)]].
Qed.

(** C8, as the code has it. [cleanup_old_sessions] removes exactly the
    sessions whose status is "completed" or "cancelled" and whose
    [completed_at] is set and older than [now - days * 86400]; every other
    session, a "failed" one included, stays as it is, and so does the
    [downloads] table. The number of removed rows is [cursor.rowcount], which
    is logged; the method itself returns nothing. *)
Theorem cleanup_old_sessions_removes_expired
        (now : Q) (days : Z) (db : Database.DownloadDatabase) :
  let cutoff_time := (now - inject_Z (days * 24 * 60 * 60))%Q in
  let out := Database.cleanup_old_sessions now days db in
  out.1 = tt
  /\ Database.downloads out.2 = Database.downloads db
  /\ (forall sid,
        Database.download_sessions out.2 !! sid
        = match Database.download_sessions db !! sid with
          | Some row => if Database.expired cutoff_time row then None else Some row
          | None => None
          end)
  /\ (forall row,
        Database.expired cutoff_time row = true
        <-> (Database.session_status row = "completed"
             \/ Database.session_status row = "cancelled")
            /\ exists t, Database.session_completed_at row = Some t
                         /\ (t < cutoff_time)%Q)
  /\ (forall row, Database.session_status row = "failed" ->
                  Database.expired cutoff_time row = false)
  /\ size (Database.download_sessions db)
     = (Database.deleted_count now days db
        + size (Database.download_sessions out.2))%nat.
Proof.
  intros cutoff_time out. split; [done|]. split; [done|].
  split; [|split; [apply expired_spec|split]].
  - intros sid. subst out. cbn. rewrite map_lookup_filter.
    destruct (Database.download_sessions db !! sid) as [row|]; [|done]. cbn.
    destruct (Database.expired _ row) eqn:He.
    + by rewrite option_guard_False by (by intros []).
    + by rewrite option_guard_True by done.
  - intros row Hs. unfold Database.expired. by rewrite Hs.
  - subst out. unfold Database.deleted_count. cbn.
    rewrite <- map_size_disj_union by apply map_disjoint_filter_complement.
    by rewrite map_filter_union_complement.
Qed.

Lemma cleanup_old_sessions_removes_expired_witness :
  let old status :=
    {| Database.session_playlist_url := "list"; Database.session_started_at := 0;
       Database.session_completed_at := Some 10%Q; Database.session_status := status;
       Database.total_videos := 3; Database.completed_videos := 3;
       Database.failed_videos := 0; Database.config := "{}" |} in
  let db := {| Database.downloads := ∅;
               Database.download_sessions :=
                 {["s1" := old "completed"; "s2" := old "active"]} |} in
  let out := Database.cleanup_old_sessions 3456000 30 db in
  Database.download_sessions out.2 !! "s1" = None
  /\ Database.download_sessions out.2 !! "s2" = Some (old "active").
Proof.
  intros old db out.
  destruct (cleanup_old_sessions_removes_expired 3456000 30 db)
    as (_ & _ & Hlookup & _).
  split; [exact (Hlookup "s1")|exact (Hlookup "s2")].
Defined.

(** A session that ended "failed" forty days ago survives a clean-up with
    a retention of thirty days. *)
Lemma failed_session_not_cleaned_up :
  let failed_session :=
    {| Database.session_playlist_url := "list"; Database.session_started_at := 0;
       Database.session_completed_at := Some 10%Q;
       Database.session_status := "failed";
       Database.total_videos := 3; Database.completed_videos := 2;
       Database.failed_videos := 1; Database.config := "{}" |} in
  let db := {| Database.downloads := ∅;
               Database.download_sessions := {["s1" := failed_session]} |} in
  let out := Database.cleanup_old_sessions 3456000 30 db in
  (10 < 3456000 - inject_Z (30 * 24 * 60 * 60))%Q
  /\ Database.download_sessions out.2 !! "s1" = Some failed_session
  /\ Database.download_sessions out.2 !! "s1" <> None
  /\ out.1 = tt.
Proof.
  intros failed_session db out. split; [reflexivity|].
  split; [vm_compute; reflexivity|]. split; [vm_compute; discriminate|reflexivity].
Qed.

(** ** Session of a playlist run *)

Lemma add_downloads_sessions (records : list Database.DownloadRecord) :
  forall db,
    Database.download_sessions
      (fold_left (fun db record => snd (Database.add_download record db)) records db)
    = Database.download_sessions db.
Proof.
  induction records as [|record records IH]; intros db; [done|].
  cbn [fold_left]. by rewrite IH.
Qed.

Lemma count_succeeded_cons (job : result bool) (jobs : list (result bool)) :
  Downloader.count_succeeded (job :: jobs)
  = (if Downloader.succeeded job then 1 else 0) + Downloader.count_succeeded jobs.
Proof.
  unfold Downloader.count_succeeded. cbn [List.filter].
  destruct (Downloader.succeeded job); cbn [length]; lia.
Qed.

Lemma count_failed_cons (job : result bool) (jobs : list (result bool)) :
  Downloader.count_failed (job :: jobs)
  = (if Downloader.succeeded job then 0 else 1) + Downloader.count_failed jobs.
Proof.
  unfold Downloader.count_failed. cbn [List.filter].
  destruct (Downloader.succeeded job); cbn [length negb]; lia.
Qed.

(** What the result loop leaves: the counts of the futures it got through,
    written to the session row, and nothing else changed in that row. *)
Lemma collect_session (futures : list (bool * result bool)) :
  forall (s f : Z) (d : Downloader.YouTubeDownloader)
         (db : Database.DownloadDatabase) (sid : string) (row : Database.SessionRow),
    Downloader.database d = Some db ->
    Downloader.session_id d = Some sid ->
    Database.download_sessions db !! sid = Some row ->
    Database.completed_videos row = s ->
    Database.failed_videos row = f ->
    let out := Downloader.collect futures s f d in
    out.1.1 = s + Downloader.count_succeeded (Downloader.processed futures)
    /\ out.1.2 = f + Downloader.count_failed (Downloader.processed futures)
    /\ Downloader.session_id out.2 = Some sid
    /\ Downloader.clock out.2 = Downloader.clock d
    /\ exists db' row',
        Downloader.database out.2 = Some db'
        /\ Database.download_sessions db' !! sid = Some row'
        /\ Database.completed_videos row' = out.1.1
        /\ Database.failed_videos row' = out.1.2
        /\ Database.session_status row' = Database.session_status row
        /\ Database.total_videos row' = Database.total_videos row.
Proof.
  induction futures as [|[seen job] futures IH]; intros s f d db sid row Hdb Hsid Hrow Hs Hf.
  - cbn. unfold Downloader.count_succeeded, Downloader.count_failed. cbn.
    split; [lia|]. split; [lia|]. split; [done|]. split; [done|]. by exists db, row.
  - cbn [Downloader.collect Downloader.processed]. destruct seen.
    + cbn. unfold Downloader.count_succeeded, Downloader.count_failed. cbn.
      split; [lia|]. split; [lia|]. split; [done|]. split; [done|]. by exists db, row.
    + rewrite count_succeeded_cons, count_failed_cons.
      set (s' := s + (if Downloader.succeeded job then 1 else 0)).
      set (f' := f + (if Downloader.succeeded job then 0 else 1)).
      assert (Hcounts :
                match job with
                | Ok true => (s + 1, f)
                | Ok false => (s, f + 1)
                | Err _ | RaisedNone => (s, f + 1)
                end = (s', f')).
      { subst s' f'. destruct job as [[|]| |]; cbn; f_equal; lia. }
      rewrite Hcounts, Hsid. unfold Downloader.on_database. rewrite Hdb.
      set (db1 := Database.update_session_stats sid (Some s') (Some f') db).
      set (d1 := Downloader.set_database (Some db1) d).
      destruct (IH s' f' d1 db1 sid
                   {| Database.session_playlist_url := Database.session_playlist_url row;
                      Database.session_started_at := Database.session_started_at row;
                      Database.session_completed_at := Database.session_completed_at row;
                      Database.session_status := Database.session_status row;
                      Database.total_videos := Database.total_videos row;
                      Database.completed_videos := s';
                      Database.failed_videos := f';
                      Database.config := Database.config row |})
        as (H1 & H2 & H3 & H4 & db' & row' & H5 & H6 & H7 & H8 & H9 & H10);
        [done|done| |done|done|].
      { subst db1. cbn. by rewrite lookup_alter_eq, Hrow. }
      split; [subst s'; lia|]. split; [subst f'; lia|].
      split; [done|]. split; [done|]. by exists db', row'.
Qed.

(** C1, as the code has it. When the playlist was extracted and the pool
    has drained, the session is finalized with status "completed", whatever
    the number of failed jobs and whether or not shutdown was requested; its
    counters are those of the futures the loop got through, and the call
    returns whether no job failed. The session is marked "failed" only when
    the run is aborted by an exception (here: the extraction raising while a
    session id is set). *)
Theorem download_playlist_session_status
        (p_url new_session_id config_json : string)
        (pool : list Database.DownloadRecord -> Downloader.YouTubeDownloader
                -> list (bool * result bool) * Downloader.YouTubeDownloader)
        (d : Downloader.YouTubeDownloader) (db : Database.DownloadDatabase) :
  Downloader.database d = Some db ->
  (forall playlist,
      Database.download_sessions db !! new_session_id = None ->
      let started := Downloader.start_session p_url playlist new_session_id config_json d in
      let drained := pool (Downloader.download_records playlist) started in
      Downloader.session_id drained.2 = Downloader.session_id started ->
      Database.download_sessions <$> Downloader.database drained.2
      = Database.download_sessions <$> Downloader.database started ->
      let out := Downloader.download_playlist p_url (Some playlist) new_session_id
                                              config_json pool d in
      let jobs := Downloader.processed drained.1 in
      out.1 = (Downloader.count_failed jobs =? 0)
      /\ exists db' row,
          Downloader.database out.2 = Some db'
          /\ Database.download_sessions db' !! new_session_id = Some row
          /\ Database.session_status row = "completed"
          /\ Database.session_completed_at row = Some (Downloader.clock drained.2)
          /\ Database.total_videos row = Downloader.video_count playlist
          /\ Database.completed_videos row = Downloader.count_succeeded jobs
          /\ Database.failed_videos row = Downloader.count_failed jobs)
  /\ (forall sid row,
         Downloader.session_id d = Some sid ->
         Database.download_sessions db !! sid = Some row ->
         let out := Downloader.download_playlist p_url None new_session_id
                                                 config_json pool d in
         out.1 = false
         /\ exists db' row',
             Downloader.database out.2 = Some db'
             /\ Database.download_sessions db' !! sid = Some row'
             /\ Database.session_status row' = "failed").
Proof.
  intros Hdb. split.
  - intros playlist Hfresh started drained Hsid Hsessions out jobs.
    subst out. unfold Downloader.download_playlist. fold started. fold drained.
    assert (Hstarted : exists db1 row1,
               Downloader.database started = Some db1
               /\ Downloader.session_id started = Some new_session_id
               /\ Database.download_sessions db1 !! new_session_id = Some row1
               /\ Database.completed_videos row1 = 0
               /\ Database.failed_videos row1 = 0
               /\ Database.total_videos row1 = Downloader.video_count playlist).
    { subst started. unfold Downloader.start_session.
      rewrite Hdb. unfold Database.create_download_session. rewrite Hfresh.
      eexists _, _. split; [done|]. split; [done|].
      rewrite add_downloads_sessions. cbn. rewrite lookup_insert_eq. done. }
    destruct Hstarted as (db1 & row1 & Hdb1 & Hsid1 & Hrow1 & Hc1 & Hf1 & Ht1).
    destruct drained as [futures d2] eqn:Hdrained. cbn [fst snd] in *.
    rewrite Hdb1 in Hsessions. rewrite Hsid1 in Hsid.
    destruct (Downloader.database d2) as [db2|] eqn:Hdb2; [|done].
    injection Hsessions as Hsessions.
    destruct (collect_session futures 0 0 d2 db2 new_session_id row1)
      as (H1 & H2 & H3 & H4 & db3 & row3 & H5 & H6 & H7 & H8 & H9 & H10);
      [done|done|by rewrite Hsessions|done|done|].
    destruct (Downloader.collect futures 0 0 d2) as [[s f] d3]. cbn [fst snd] in *.
    rewrite H3. unfold Downloader.on_database. rewrite H5.
    cbn [fst snd]. split; [subst jobs; f_equal; lia|].
    eexists _, _. split; [done|]. cbn. rewrite lookup_alter_eq, H6. cbn.
    split; [done|]. split; [done|]. split; [by rewrite H4|].
    split; [cbn; congruence|]. subst jobs. cbn. split; lia.
  - intros sid row Hsid Hrow out. subst out. unfold Downloader.download_playlist.
    rewrite Hsid. unfold Downloader.on_database. rewrite Hdb. cbn [fst snd].
    split; [done|]. eexists _, _. split; [done|]. cbn.
    rewrite lookup_alter_eq, Hrow. done.
Qed.

Lemma download_playlist_session_status_witness :
  let d := Scenario.fresh in
  let started := Downloader.start_session Scenario.playlist_url Scenario.playlist
                                          "session1" "{}" d in
  let drained := Downloader.run_jobs Scenario.ydl_download
                   (Downloader.download_records Scenario.playlist) started in
  Downloader.database d = Some Scenario.empty_database
  /\ Database.download_sessions Scenario.empty_database !! "session1" = None
  /\ Downloader.session_id drained.2 = Downloader.session_id started
  /\ Database.download_sessions <$> Downloader.database drained.2
     = Database.download_sessions <$> Downloader.database started
  /\ (Scenario.run d).1 = (Downloader.count_failed (Downloader.processed drained.1) =? 0).
Proof.
  intros d started drained.
  assert (Hdb : Downloader.database d = Some Scenario.empty_database) by reflexivity.
  assert (Hfresh : Database.download_sessions Scenario.empty_database !! "session1" = None)
    by reflexivity.
  assert (Hsid : Downloader.session_id drained.2 = Downloader.session_id started)
    by (vm_compute; reflexivity).
  assert (Hsessions : Database.download_sessions <$> Downloader.database drained.2
                      = Database.download_sessions <$> Downloader.database started)
    by (vm_compute; reflexivity).
  destruct (download_playlist_session_status
              Scenario.playlist_url "session1" "{}"
              (Downloader.run_jobs Scenario.ydl_download) d Scenario.empty_database Hdb)
    as [Hrun _].
  destruct (Hrun Scenario.playlist Hfresh Hsid Hsessions) as [Hresult _].
  split; [exact Hdb|]. split; [exact Hfresh|]. split; [exact Hsid|].
  split; [exact Hsessions|exact Hresult].
Defined.

(** The three-item run with the second job failing ("Video unavailable" is
    not retried): the session row ends with 2 completed, 1 failed and the
    status "completed", not "failed". And a run during which shutdown is
    requested ends "completed" too, not "cancelled". *)
Lemma session_completed_despite_failure :
  let out := Scenario.run Scenario.fresh in
  let stopped := Scenario.run Scenario.shutting_down in
  out.1 = false
  /\ Database.completed_videos <$> Scenario.session_row out = Some 2
  /\ Database.failed_videos <$> Scenario.session_row out = Some 1
  /\ Database.session_status <$> Scenario.session_row out = Some "completed"
  /\ Database.session_status <$> Scenario.session_row out <> Some "failed"
  /\ Database.session_status <$> Scenario.session_row stopped = Some "completed"
  /\ Database.session_status <$> Scenario.session_row stopped <> Some "cancelled".
Proof.
  intros out stopped. split; [vm_compute; reflexivity|].
  split; [vm_compute; reflexivity|]. split; [vm_compute; reflexivity|].
  split; [vm_compute; reflexivity|]. split; [vm_compute; discriminate|].
  split; [vm_compute; reflexivity|]. vm_compute; discriminate.
Qed.

(** * Further properties of the code *)

(** ** Circuit breaker: reachable states *)

Lemma breaker_inv_step (th to : Z) (cb : CircuitBreaker) (c : breaker_call) :
  1 <= th ->
  Invariants.breaker_inv th to cb ->
  exists cb', breaker_step cb c = Some cb' /\ Invariants.breaker_inv th to cb'.
Proof.
  intros Hth (Ht & Hto & Hc & Hclosed & Hopen).
  destruct c as [now| |now]; cbn.
  - unfold can_execute. destruct (state cb) eqn:Hst.
    + exists cb. split; [done|]. unfold Invariants.breaker_inv. by rewrite Hst.
    + destruct (Hopen ltac:(done)) as [Hge [t Hlast]]. rewrite Hlast.
      destruct (Py.Qltb _ _); cbn.
      * eexists. split; [done|]. unfold Invariants.breaker_inv. cbn.
        rewrite Hlast. repeat split; try done; by eexists.
      * exists cb. split; [done|]. unfold Invariants.breaker_inv. by rewrite Hst.
    + exists cb. split; [done|]. unfold Invariants.breaker_inv. by rewrite Hst.
  - eexists. split; [done|]. unfold record_success.
    destruct (state cb) eqn:Hst.
    + unfold Invariants.breaker_inv. by rewrite Hst.
    + unfold Invariants.breaker_inv. by rewrite Hst.
    + unfold Invariants.breaker_inv. cbn. repeat split; try done; lia.
  - eexists. split; [done|].
    destruct (record_failure_fields now cb) as (Hth' & Hto' & Hfc & Hlf).
    pose proof (record_failure_state now cb) as Hs.
    unfold Invariants.breaker_inv. rewrite Hth', Hto', Hfc, Hlf, Hs, Ht.
    split; [done|]. split; [done|]. split; [lia|].
    destruct (failure_count cb + 1 >=? th) eqn:Hge.
    + rewrite Z.geb_leb in Hge. apply Z.leb_le in Hge.
      split; [done|]. intros _. split; [lia|by eexists].
    + rewrite Z.geb_leb in Hge. apply Z.leb_gt in Hge.
      split; [intros _; lia|]. intros Hne. destruct (Hopen Hne). lia.
Qed.

Lemma breaker_run_inv (th to : Z) (calls : list breaker_call) :
  1 <= th ->
  exists cb, breaker_run (CircuitBreaker_init th to) calls = Some cb
             /\ Invariants.breaker_inv th to cb.
Proof.
  intros Hth.
  assert (Hrun : forall calls cb, Invariants.breaker_inv th to cb ->
             exists cb', breaker_run cb calls = Some cb'
                         /\ Invariants.breaker_inv th to cb').
  { clear calls. induction calls as [|c calls IH]; intros cb Hinv.
    - by exists cb.
    - destruct (breaker_inv_step th to cb c Hth Hinv) as (cb1 & Hstep & Hinv1).
      destruct (IH cb1 Hinv1) as (cb' & Hrun & Hinv').
      exists cb'. cbn. by rewrite Hstep. }
  apply Hrun. unfold Invariants.breaker_inv. cbn. repeat split; try done; lia.
Qed.

(** X1. Whatever calls are made on a breaker created with a threshold of at
    least 1, none fails ([can_execute] never subtracts from a missing time),
    the configuration is kept, and the breaker is closed exactly while the
    counted failures are below the threshold; open or half-open, it has the
    time of its last failure. *)
Theorem breaker_reachable_invariant (th to : Z) (calls : list breaker_call) :
  1 <= th ->
  exists cb,
    breaker_run (CircuitBreaker_init th to) calls = Some cb
    /\ failure_threshold cb = th
    /\ timeout cb = to
    /\ 0 <= failure_count cb
    /\ (state cb = closed <-> failure_count cb < th)
    /\ (state cb <> closed -> is_Some (last_failure_time cb)).
Proof.
  intros Hth.
  destruct (breaker_run_inv th to calls Hth) as (cb & Hcb & Hinv).
  destruct Hinv as (Ht & Hto & Hc & Hclosed & Hopen).
  exists cb. split; [done|]. split; [done|]. split; [done|]. split; [done|].
  split.
  - split; [done|]. intros Hlt.
    destruct (state cb) eqn:Hst; [done| |];
      (destruct Hopen as [Hge _]; [done|lia]).
  - intros Hne. by destruct (Hopen Hne).
Qed.

Lemma breaker_reachable_invariant_witness :
  exists cb,
    breaker_run (CircuitBreaker_init 2 60)
                [RecordFailure 1; CanExecute 2; RecordFailure 3; CanExecute 70;
                 RecordSuccess; RecordFailure 80] = Some cb
    /\ (state cb = closed <-> failure_count cb < 2).
Proof.
  destruct (breaker_reachable_invariant 2 60
              [RecordFailure 1; CanExecute 2; RecordFailure 3; CanExecute 70;
               RecordSuccess; RecordFailure 80]) as (cb & Hrun & _ & _ & _ & Hiff & _);
    [lia|].
  exists cb. split; [exact Hrun|exact Hiff].
Defined.

(** X2. A failure of the probe re-opens the breaker at once: when a breaker
    that was created with a threshold of at least 1 is half-open after some
    calls, one [record_failure()] opens it, and [can_execute()] answers false
    again until the timeout has passed since that failure. *)
Theorem half_open_failure_reopens (th to : Z) (calls : list breaker_call)
        (cb : CircuitBreaker) (now : Q) :
  1 <= th ->
  breaker_run (CircuitBreaker_init th to) calls = Some cb ->
  state cb = half_open ->
  state (record_failure now cb) = open
  /\ last_failure_time (record_failure now cb) = Some now
  /\ forall t, (t - now <= inject_Z to)%Q ->
               can_execute t (record_failure now cb) = Some (false, record_failure now cb).
Proof.
  intros Hth Hrun Hst.
  destruct (breaker_run_inv th to calls Hth)
    as (cb' & Hrun' & Ht & Hto & Hc & _ & Hnot).
  rewrite Hrun in Hrun'. injection Hrun' as <-.
  assert (Hge : th <= failure_count cb).
  { destruct Hnot as [Hge _]; [by rewrite Hst|done]. }
  destruct (record_failure_fields now cb) as (Hth' & Hto' & Hfc & Hlf).
  assert (Hopen : state (record_failure now cb) = open).
  { rewrite record_failure_state.
    destruct (failure_count cb + 1 >=? failure_threshold cb) eqn:Hgeb; [done|].
    rewrite Z.geb_leb in Hgeb. apply Z.leb_gt in Hgeb. lia. }
  split; [done|]. split; [done|].
  intros t Hle. unfold can_execute. rewrite Hopen, Hlf, Hto', Hto.
  by apply Qltb_false in Hle as ->.
Qed.

Lemma half_open_failure_reopens_witness :
  let calls := [RecordFailure 1; RecordFailure 2; CanExecute 70] in
  exists cb,
    breaker_run (CircuitBreaker_init 2 60) calls = Some cb
    /\ state cb = half_open
    /\ state (record_failure 71 cb) = open.
Proof.
  intros calls. eexists. split; [reflexivity|]. split; [reflexivity|].
  apply (half_open_failure_reopens 2 60 calls _ 71); [lia|reflexivity|reflexivity].
Defined.

(** ** Retry engine: bounds and successful runs *)

Lemma calculate_delay_nonneg {W : Type} `{Runtime W}
      (config : RetryConfig) (n : Z) (w : W) :
  (0 <= (calculate_delay config n w).1)%Q.
Proof.
  destruct (jitter config) eqn:Hj.
  - rewrite calculate_delay_jitter by done. apply Q.le_max_l.
  - rewrite calculate_delay_no_jitter by done. apply Q.le_max_l.
Qed.

Section RetryBounds.
Context {W : Type} `{Runtime W} {A : Type}.
Variable config : RetryConfig.
Variable func : W -> outcome A * W.

Lemma retry_from_bounds (remaining : nat) :
  forall (attempt : Z) (last_error : option DownloadError) (w : W),
    Z.of_nat remaining = Z.max 0 (max_attempts config - attempt + 1) ->
    let r := retry_from config func remaining attempt last_error w in
    attempts (trace r) <= Z.of_nat remaining
    /\ Z.of_nat (length (sleeps (trace r))) = Z.max 0 (attempts (trace r) - 1)
    /\ Forall (fun delay => (0 <= delay)%Q) (sleeps (trace r))
    /\ ((1 <= remaining)%nat -> 1 <= attempts (trace r)).
Proof.
  induction remaining as [|k IH]; intros attempt last_error w Hrem r; subst r.
  - cbn. repeat split; try done; lia.
  - cbn [retry_from]. destruct (func w) as [[a|x] w1].
    { cbn [trace]. unfold attempts, sleeps. cbn [List.filter flat_map app length].
      split; [lia|]. split; [lia|]. split; [done|lia]. }
    destruct (should_retry config (caught x) attempt) eqn:Hsr; cbn [negb].
    2: { cbn [trace]. unfold attempts, sleeps. cbn [List.filter flat_map app length].
         split; [lia|]. split; [lia|]. split; [done|lia]. }
    apply should_retry_true in Hsr as [Hlt _]. apply Z.ltb_lt in Hlt as Hltb.
    rewrite Hltb.
    pose proof (calculate_delay_nonneg config attempt w1) as Hd.
    destruct (calculate_delay config attempt w1) as [delay w2]. cbn [fst] in Hd.
    destruct (IH (attempt + 1) (Some (caught x)) (sleep delay w2))
      as (Ha & Hs & Hf & Hp); [lia|].
    cbn [emit trace app]. unfold attempts, sleeps in *.
    cbn [List.filter flat_map app length].
    specialize (Hp ltac:(lia)).
    split; [lia|]. split; [lia|]. split; [by constructor|lia].
Qed.
End RetryBounds.

(** X3. For any operation and policy, [retry] calls the operation at most
    [max_attempts] times, sleeps exactly once between two consecutive calls
    and never after the last one, and never sleeps a negative time. With
    [max_attempts <= 0] it makes no call at all and ends in the [TypeError]
    of raising [None], the world untouched. *)
Theorem retry_bounds {W : Type} `{Runtime W} {A : Type}
        (config : RetryConfig) (func : W -> outcome A * W) (w : W) :
  let r := retry config func w in
  attempts (trace r) <= Z.max 0 (max_attempts config)
  /\ Z.of_nat (length (sleeps (trace r))) = Z.max 0 (attempts (trace r) - 1)
  /\ Forall (fun delay => (0 <= delay)%Q) (sleeps (trace r))
  /\ (1 <= max_attempts config -> 1 <= attempts (trace r))
  /\ (max_attempts config <= 0 ->
      trace r = [] /\ res r = RaisedNone /\ world r = w).
Proof.
  intros r. subst r. unfold retry.
  destruct (retry_from_bounds config func (Z.to_nat (max_attempts config)) 1 None w)
    as (Ha & Hs & Hf & Hp); [lia|].
  split; [lia|]. split; [done|]. split; [done|]. split; [intros; apply Hp; lia|].
  intros Hle. replace (Z.to_nat (max_attempts config)) with 0%nat by lia. done.
Qed.

Section RetrySuccess.
Context {W : Type} `{Runtime W} {A : Type}.
Variable config : RetryConfig.
Variable func : W -> outcome A * W.

Lemma retry_from_success (remaining : nat) :
  forall (attempt : Z) (last_error : option DownloadError) (w : W) (a : A),
    Z.of_nat remaining = Z.max 0 (max_attempts config - attempt + 1) ->
    let r := retry_from config func remaining attempt last_error w in
    res r = Ok a ->
    exists n,
      last (trace r) = Some (Attempt n None)
      /\ attempt <= n <= max_attempts config
      /\ attempts (trace r) = n - attempt + 1
      /\ Z.of_nat (length (failures (trace r))) = n - attempt
      /\ Forall (fun e => retryable config e = true) (failures (trace r)).
Proof.
  induction remaining as [|k IH]; intros attempt last_error w a Hrem r Hok; subst r.
  - cbn in Hok. by destruct last_error.
  - cbn [retry_from] in *. destruct (func w) as [[a'|x] w1].
    { exists attempt. cbn [trace]. unfold attempts, failures.
      cbn [List.filter flat_map app length].
      split; [done|]. split; [lia|]. split; [lia|]. split; [lia|done]. }
    destruct (should_retry config (caught x) attempt) eqn:Hsr; cbn [negb] in *;
      [|done].
    apply should_retry_true in Hsr as [Hlt Hretry]. apply Z.ltb_lt in Hlt as Hltb.
    rewrite Hltb in *.
    destruct (calculate_delay config attempt w1) as [delay w2].
    cbn [emit res trace] in *.
    destruct (IH (attempt + 1) (Some (caught x)) (sleep delay w2) a)
      as (n & Hlast & Hn & Ha & Hf & Hall); [lia|done|].
    exists n. unfold attempts, failures in *.
    cbn [List.filter flat_map app length].
    split.
    { destruct (trace (retry_from config func k (attempt + 1) (Some (caught x))
                                   (sleep delay w2))) as [|ev evs]; [done|].
      exact Hlast. }
    split; [lia|]. split; [lia|]. split; [lia|by constructor].
Qed.
End RetrySuccess.

(** X4. When [retry] returns a value, the call that returned it is the last
    event of the run, its number [n] is at most [max_attempts], the [n - 1]
    attempts before it all failed with retryable errors, and there were
    [n - 1] sleeps. *)
Theorem retry_success {W : Type} `{Runtime W} {A : Type}
        (config : RetryConfig) (func : W -> outcome A * W) (w : W) (a : A) :
  let r := retry config func w in
  res r = Ok a ->
  exists n,
    last (trace r) = Some (Attempt n None)
    /\ 1 <= n <= max_attempts config
    /\ attempts (trace r) = n
    /\ Z.of_nat (length (failures (trace r))) = n - 1
    /\ Z.of_nat (length (sleeps (trace r))) = n - 1
    /\ Forall (fun e => retryable config e = true) (failures (trace r)).
Proof.
  intros r Hok. subst r. unfold retry in *.
  destruct (retry_from_success config func (Z.to_nat (max_attempts config)) 1 None w a)
    as (n & Hlast & Hn & Ha & Hf & Hall); [lia|done|].
  destruct (retry_from_bounds config func (Z.to_nat (max_attempts config)) 1 None w)
    as (_ & Hs & _); [lia|].
  exists n. split; [done|]. split; [lia|]. split; [lia|]. split; [lia|].
  split; [lia|done].
Qed.

Lemma retry_success_witness :
  let r := Downloader._download_single_video Scenario.ydl_download
                                             (Scenario.item "1") Scenario.fresh in
  res r = Ok true
  /\ exists n, last (trace r) = Some (Attempt n None) /\ attempts (trace r) = n.
Proof.
  intros r.
  assert (Hok : res r = Ok true) by (vm_compute; reflexivity).
  split; [exact Hok|].
  destruct (retry_success (RetryConfig_default 3)
              (Downloader.download_single_video_body Scenario.ydl_download
                                                     (Scenario.item "1"))
              Scenario.fresh true Hok) as (n & Hlast & _ & Ha & _).
  exists n. split; [exact Hlast|exact Ha].
Defined.

(** X5. Whatever the attempt number, a delay is at most five quarters of
    [max_delay] (and 0 when [max_delay] is negative), provided the random
    source answers within [0, 1]. *)
Theorem calculate_delay_upper_bound {W : Type} `{Runtime W}
        (config : RetryConfig) (n : Z) (w : W) :
  (0 <= (random w).1 <= 1)%Q ->
  ((calculate_delay config n w).1 <= Qmax 0 (max_delay config * (5 # 4)))%Q.
Proof.
  intros Hr.
  assert (Hcap : (capped_delay config n <= max_delay config)%Q)
    by apply Q.le_min_r.
  destruct (jitter config) eqn:Hj.
  - rewrite calculate_delay_jitter by done. cbn [fst].
    pose proof (uniform_quarter_bound (capped_delay config n) _ Hr) as Hu.
    apply Qabs_Qle_condition in Hu as [_ Hu].
    apply Q.max_lub; [apply Q.le_max_l|].
    destruct (Qlt_le_dec (capped_delay config n) 0) as [Hd|Hd].
    + rewrite (Qabs_neg (capped_delay config n)) in Hu by lra.
      apply Qle_trans with 0%Q; [lra|apply Q.le_max_l].
    + rewrite (Qabs_pos (capped_delay config n)) in Hu by lra.
      apply Qle_trans with (max_delay config * (5 # 4))%Q; [lra|apply Q.le_max_r].
  - rewrite calculate_delay_no_jitter by done. cbn [fst].
    apply Q.max_lub; [apply Q.le_max_l|].
    destruct (Qlt_le_dec (max_delay config) 0) as [Hd|Hd].
    + apply Qle_trans with 0%Q; [lra|apply Q.le_max_l].
    + apply Qle_trans with (max_delay config * (5 # 4))%Q; [lra|apply Q.le_max_r].
Qed.

Lemma calculate_delay_upper_bound_witness :
  ((calculate_delay (RetryConfig_default 3) 10 Scenario.fresh).1
   <= Qmax 0 (60 * (5 # 4)))%Q.
Proof.
  apply (calculate_delay_upper_bound (RetryConfig_default 3) 10 Scenario.fresh).
  vm_compute. split; discriminate.
Defined.

(** ** Error classifier: letter case *)

Lemma lower_ascii_idem (c : ascii) : Py.lower_ascii (Py.lower_ascii c) = Py.lower_ascii c.
Proof. destruct c as [[] [] [] [] [] [] [] []]; reflexivity. Qed.

Lemma lower_idem (s : string) : Py.lower (Py.lower s) = Py.lower s.
Proof.
  induction s as [|c s IH]; [done|]. cbn [Py.lower]. by rewrite lower_ascii_idem, IH.
Qed.

(** X6. Classification looks at the lower-cased message only: two messages
    that differ in letter case (or in the URL passed along) get the same
    kind, and a message and its lower-cased form do. The message itself is
    kept as it was given. *)
Theorem classify_case_insensitive (msg1 msg2 u1 u2 : string) :
  Py.lower msg1 = Py.lower msg2 ->
  error_type (classify_ytdlp_error msg1 u1) = error_type (classify_ytdlp_error msg2 u2)
  /\ error_type (classify_ytdlp_error (Py.lower msg1) u1)
     = error_type (classify_ytdlp_error msg1 u1)
  /\ message (classify_ytdlp_error msg1 u1) = msg1
  /\ url (classify_ytdlp_error msg1 u1) = Some u1.
Proof.
  intros Hlow. rewrite !classify_first_match, lower_idem, Hlow.
  split; [done|]. split; [done|].
  unfold classify_ytdlp_error.
  split; repeat (destruct (Py.any_in _ _); [reflexivity|]); reflexivity.
Qed.

Lemma classify_case_insensitive_witness :
  error_type (classify_ytdlp_error "VIDEO UNAVAILABLE" "a")
  = error_type (classify_ytdlp_error "Video Unavailable" "b").
Proof.
  apply (classify_case_insensitive "VIDEO UNAVAILABLE" "Video Unavailable" "a" "b").
  reflexivity.
Defined.

(** ** A single attempt: registration and the breaker *)

(** X7. An attempt that passes its guards never leaves its job registered:
    whatever the collaborator does, when the attempt ends (returning or
    raising) the id is neither in the set of active downloads of the shutdown
    coordinator nor in the downloader's table of active downloads. *)
Theorem attempt_unregisters
        (ydl_download : string -> Downloader.YouTubeDownloader
                        -> option string * Downloader.YouTubeDownloader)
        (record : Database.DownloadRecord) (d : Downloader.YouTubeDownloader)
        (cb : CircuitBreaker) :
  can_execute (Downloader.clock d) (Downloader.circuit_breaker d) = Some (true, cb) ->
  shutdown_requested (Downloader.graceful_shutdown d) = false ->
  let d' := (Downloader.download_single_video_body ydl_download record d).2 in
  (Database.id record ∉ active_downloads (Downloader.graceful_shutdown d'))
  /\ Downloader.active_downloads d' !! Database.id record = None.
Proof.
  intros Hc Hs d'. subst d'. unfold Downloader.download_single_video_body.
  rewrite Hc. cbn [negb]. unfold is_shutdown_requested.
  cbn [Downloader.graceful_shutdown Downloader.set_circuit_breaker]. rewrite Hs.
  assert (Hclean : forall w,
             (Database.id record
              ∉ active_downloads
                  (Downloader.graceful_shutdown
                     (Downloader.cleanup_download (Database.id record) w)))
             /\ Downloader.active_downloads
                  (Downloader.cleanup_download (Database.id record) w)
                !! Database.id record = None).
  { intros w. unfold Downloader.cleanup_download. cbn.
    split; [|apply lookup_delete_eq].
    intros Hin. apply elem_of_difference in Hin as [_ Hnot].
    apply Hnot. by apply elem_of_singleton. }
  match goal with |- context [if ?b then _ else _] => destruct b end.
  - apply Hclean.
  - match goal with |- context [ydl_download ?u ?w] =>
      destruct (ydl_download u w) as [[text|] w'] end; apply Hclean.
Qed.

Lemma attempt_unregisters_witness :
  let d' := (Downloader.download_single_video_body
               Scenario.ydl_download (Scenario.item "2") Scenario.fresh).2 in
  (Database.id (Scenario.item "2") ∉ active_downloads (Downloader.graceful_shutdown d'))
  /\ Downloader.active_downloads d' !! Database.id (Scenario.item "2") = None.
Proof.
  apply (attempt_unregisters Scenario.ydl_download (Scenario.item "2") Scenario.fresh
                             (Downloader.circuit_breaker Scenario.fresh));
    reflexivity.
Defined.

(** ** Job store: upsert and the schema's invariants *)

Lemma add_download_lookup (record : Database.DownloadRecord)
      (db : Database.DownloadDatabase) (k : string) :
  Database.downloads (Database.add_download record db).2 !! k
  = if decide (k = Database.id record) then Some record
    else match Database.downloads db !! k with
         | Some r =>
             if decide (Database.playlist_url r = Database.playlist_url record
                        /\ Database.video_id r = Database.video_id record)
             then None else Some r
         | None => None
         end.
Proof.
  cbn. destruct (decide (k = Database.id record)) as [->|Hne].
  - apply lookup_insert_eq.
  - rewrite lookup_insert_ne by done. rewrite map_lookup_filter.
    destruct (Database.downloads db !! k) as [r|]; [|done]. cbn.
    destruct (decide (_ /\ _)) as [Hsame|Hdiff].
    + by rewrite option_guard_False by (by intros Hn; apply Hn).
    + by rewrite option_guard_True by done.
Qed.

(** X8. [add_download] is an upsert on [(playlist_url, video_id)]: after it
    the record is stored under its id, it is the only row with its playlist
    and video id, every other row that does not clash with it is kept as it
    was, and the sessions are untouched. Adding a second record for the same
    playlist and video therefore leaves one row, the second. *)
Theorem add_download_upsert (record : Database.DownloadRecord)
        (db : Database.DownloadDatabase) :
  let db' := (Database.add_download record db).2 in
  (Database.add_download record db).1 = true
  /\ Database.downloads db' !! Database.id record = Some record
  /\ (forall k r, Database.downloads db' !! k = Some r ->
                  Database.playlist_url r = Database.playlist_url record ->
                  Database.video_id r = Database.video_id record ->
                  k = Database.id record /\ r = record)
  /\ (forall k r, k <> Database.id record ->
                  ~ (Database.playlist_url r = Database.playlist_url record
                     /\ Database.video_id r = Database.video_id record) ->
                  (Database.downloads db' !! k = Some r
                   <-> Database.downloads db !! k = Some r))
  /\ (forall record2,
         Database.playlist_url record2 = Database.playlist_url record ->
         Database.video_id record2 = Database.video_id record ->
         forall k r,
           Database.downloads (Database.add_download record2 db').2 !! k = Some r ->
           Database.playlist_url r = Database.playlist_url record ->
           Database.video_id r = Database.video_id record ->
           r = record2)
  /\ Database.download_sessions db' = Database.download_sessions db.
Proof.
  intros db'. subst db'. split; [done|].
  split; [rewrite add_download_lookup; by rewrite decide_True|].
  assert (Hunique : forall rec base k r,
             Database.downloads (Database.add_download rec base).2 !! k = Some r ->
             Database.playlist_url r = Database.playlist_url rec ->
             Database.video_id r = Database.video_id rec ->
             k = Database.id rec /\ r = rec).
  { intros rec base k r. rewrite add_download_lookup.
    destruct (decide (k = Database.id rec)) as [->|Hne]; [by intros [= ->]|].
    destruct (Database.downloads base !! k) as [r'|]; [|done].
    destruct (decide (_ /\ _)) as [Hsame|Hdiff]; [done|].
    intros [= ->] Hp Hv. by destruct Hdiff. }
  split; [apply Hunique|]. split; [|split; [|done]].
  - intros k r Hne Hdiff. rewrite add_download_lookup, decide_False by done.
    destruct (Database.downloads db !! k) as [r'|]; [|done].
    destruct (decide (_ /\ _)) as [Hsame|Hdiff'].
    + split; [done|]. intros [= ->]. by destruct Hdiff.
    + done.
  - intros record2 Hp2 Hv2 k r Hk Hp Hv.
    apply (Hunique record2 _ k r Hk); congruence.
Qed.

Lemma store_wf_add_download (record : Database.DownloadRecord)
      (db : Database.DownloadDatabase) :
  Resume.store_wf db -> Resume.store_wf (Database.add_download record db).2.
Proof.
  intros [Hkey Huniq]. split.
  - intros k r. rewrite add_download_lookup.
    destruct (decide (k = Database.id record)) as [->|Hne]; [by intros [= ->]|].
    destruct (Database.downloads db !! k) as [r'|] eqn:Hk; [|done].
    destruct (decide (_ /\ _)); [done|]. intros [= <-]. by apply Hkey.
  - intros k1 k2 r1 r2. rewrite !add_download_lookup.
    destruct (decide (k1 = Database.id record)) as [->|Hne1];
      destruct (decide (k2 = Database.id record)) as [->|Hne2]; [done| | |].
    + intros [= ->].
      destruct (Database.downloads db !! k2) as [r'|]; [|done].
      destruct (decide (_ /\ _)) as [|Hdiff]; [done|].
      intros [= ->] Hp Hv. by destruct Hdiff.
    + destruct (Database.downloads db !! k1) as [r'|]; [|done].
      destruct (decide (_ /\ _)) as [|Hdiff]; [done|].
      intros [= ->] [= ->] Hp Hv. by destruct Hdiff.
    + destruct (Database.downloads db !! k1) as [r1'|] eqn:Hk1; [|done].
      destruct (decide (_ /\ _)); [done|].
      destruct (Database.downloads db !! k2) as [r2'|] eqn:Hk2; [|done].
      destruct (decide (_ /\ _)); [done|].
      intros [= <-] [= <-]. by apply Huniq.
Qed.

Lemma update_download_status_lookup (now : Q) (download_id new_status : string)
      (bytes : option Z) (error : option string)
      (db : Database.DownloadDatabase) (k : string) :
  Database.downloads
    (Database.update_download_status now download_id new_status bytes error db).2 !! k
  = if decide (k = download_id)
    then (fun row => foldl (fun r a => Database.assign a r) row
                           (Database.status_updates now new_status bytes error))
           <$> Database.downloads db !! k
    else Database.downloads db !! k.
Proof.
  unfold Database.update_download_status.
  destruct (decide (k = download_id)) as [->|Hne].
  - destruct (Database.downloads db !! download_id) as [row|] eqn:Hrow; cbn.
    + by rewrite lookup_insert_eq.
    + by rewrite Hrow.
  - destruct (Database.downloads db !! download_id) as [row|]; cbn; [|done].
    by rewrite lookup_insert_ne.
Qed.

(** No [SET] clause writes the key columns. *)
Lemma assign_keys (updates : list Database.assignment) : forall row,
  let row' := foldl (fun r a => Database.assign a r) row updates in
  Database.id row' = Database.id row
  /\ Database.playlist_url row' = Database.playlist_url row
  /\ Database.video_id row' = Database.video_id row
  /\ Database.video_url row' = Database.video_url row
  /\ Database.created_at row' = Database.created_at row.
Proof.
  induction updates as [|a updates IH]; intros row; [done|].
  cbn [foldl]. destruct (IH (Database.assign a row)) as (H1 & H2 & H3 & H4 & H5).
  cbn zeta. by rewrite H1, H2, H3, H4, H5.
Qed.

Lemma store_wf_update_download_status (now : Q) (download_id new_status : string)
      (bytes : option Z) (error : option string) (db : Database.DownloadDatabase) :
  Resume.store_wf db ->
  Resume.store_wf
    (Database.update_download_status now download_id new_status bytes error db).2.
Proof.
  intros [Hkey Huniq].
  assert (Hback : forall k r,
             Database.downloads
               (Database.update_download_status now download_id new_status
                                                bytes error db).2 !! k = Some r ->
             exists r0, Database.downloads db !! k = Some r0
                        /\ Database.id r = Database.id r0
                        /\ Database.playlist_url r = Database.playlist_url r0
                        /\ Database.video_id r = Database.video_id r0).
  { intros k r. rewrite update_download_status_lookup.
    destruct (decide (k = download_id)) as [->|Hne].
    - destruct (Database.downloads db !! download_id) as [r0|]; [|done].
      intros [= <-]. exists r0. split; [done|].
      destruct (assign_keys (Database.status_updates now new_status bytes error) r0)
        as (H1 & H2 & H3 & _). done.
    - intros Hk. by exists r. }
  split.
  - intros k r Hk. destruct (Hback k r Hk) as (r0 & Hk0 & Hid & _).
    rewrite Hid. by apply Hkey.
  - intros k1 k2 r1 r2 Hk1 Hk2 Hp Hv.
    destruct (Hback k1 r1 Hk1) as (r1' & Hk1' & _ & Hp1 & Hv1).
    destruct (Hback k2 r2 Hk2) as (r2' & Hk2' & _ & Hp2 & Hv2).
    apply (Huniq k1 k2 r1' r2' Hk1' Hk2'); congruence.
Qed.

(** ** Job store: queries *)

Lemma elem_of_rows (db : Database.DownloadDatabase) (r : Database.DownloadRecord) :
  r ∈ Resume.rows db <-> exists k, Database.downloads db !! k = Some r.
Proof.
  unfold Resume.rows. rewrite list_elem_of_fmap. split.
  - intros ([k r'] & -> & Hin). exists k. by apply elem_of_map_to_list.
  - intros [k Hk]. exists (k, r). split; [done|]. by apply elem_of_map_to_list.
Qed.

Lemma NoDup_rows (db : Database.DownloadDatabase) :
  Resume.store_wf db -> NoDup (Resume.rows db).
Proof.
  intros [Hkey _]. unfold Resume.rows.
  apply NoDup_fmap_2_strong; [|apply NoDup_map_to_list].
  intros [k1 r1] [k2 r2] H1 H2 Heq. cbn in Heq. subst r2.
  apply elem_of_map_to_list in H1, H2.
  apply Hkey in H1, H2. congruence.
Qed.

Lemma elem_of_order_by (l : list Database.DownloadRecord) (r : Database.DownloadRecord) :
  r ∈ Resume.order_by_created_at l <-> r ∈ l.
Proof. unfold Resume.order_by_created_at. by rewrite merge_sort_Permutation. Qed.

Lemma elem_of_filter_bool {A : Type} (f : A -> bool) (l : list A) (x : A) :
  x ∈ List.filter f l <-> x ∈ l /\ f x = true.
Proof. rewrite !list_elem_of_In. apply filter_In. Qed.

Lemma incomplete_status_spec (s : string) :
  Resume.incomplete_status s = true
  <-> s = "pending" \/ s = "downloading" \/ s = "failed".
Proof.
  unfold Resume.incomplete_status. rewrite !orb_true_iff, !String.eqb_eq. tauto.
Qed.

Lemma elem_of_get_incomplete (p_url : option string) (db : Database.DownloadDatabase)
      (r : Database.DownloadRecord) :
  r ∈ Resume.get_incomplete_downloads p_url db
  <-> (exists k, Database.downloads db !! k = Some r)
      /\ Resume.in_scope p_url r = true
      /\ Resume.incomplete_status (Database.status r) = true.
Proof.
  unfold Resume.get_incomplete_downloads.
  rewrite elem_of_order_by, elem_of_filter_bool, elem_of_rows, andb_true_iff. tauto.
Qed.

Lemma created_before_sorted (l : list Database.DownloadRecord) :
  StronglySorted Resume.created_before (Resume.order_by_created_at l).
Proof.
  assert (Transitive Resume.created_before).
  { intros a b c. unfold Resume.created_before. apply Qle_trans. }
  assert (Total Resume.created_before).
  { intros a b. unfold Resume.created_before.
    destruct (Qlt_le_dec (Database.created_at b) (Database.created_at a)) as [Hlt|Hle];
      [right; by apply Qlt_le_weak|by left]. }
  by apply StronglySorted_merge_sort.
Qed.

(** X10. [get_incomplete_downloads] returns exactly the stored rows whose
    status is "pending", "downloading" or "failed" (so never a completed or
    skipped one), restricted to the playlist when one is given, each once,
    ordered by creation time. An empty playlist URL selects every playlist,
    like no URL. *)
Theorem get_incomplete_downloads_spec (p_url : option string)
        (db : Database.DownloadDatabase) :
  let l := Resume.get_incomplete_downloads p_url db in
  (forall r,
      r ∈ l <-> (exists k, Database.downloads db !! k = Some r)
                /\ (forall p, p_url = Some p -> p <> "" -> Database.playlist_url r = p)
                /\ (Database.status r = "pending" \/ Database.status r = "downloading"
                    \/ Database.status r = "failed"))
  /\ StronglySorted Resume.created_before l
  /\ (Resume.store_wf db -> NoDup l)
  /\ Resume.get_incomplete_downloads (Some "") db
     = Resume.get_incomplete_downloads None db.
Proof.
  intros l. subst l. split; [|split; [apply created_before_sorted|split; [|done]]].
  - intros r. rewrite elem_of_get_incomplete, incomplete_status_spec.
    assert (Hscope : Resume.in_scope p_url r = true
                     <-> forall p, p_url = Some p -> p <> "" ->
                                   Database.playlist_url r = p).
    { unfold Resume.in_scope. destruct p_url as [[|c p]|]; cbn.
      - split; [by intros _ p [= <-]|done].
      - rewrite String.eqb_eq. split; [by intros -> p' [= <-]|].
        intros Hp. by apply Hp.
      - done. }
    rewrite Hscope. tauto.
  - intros Hwf. unfold Resume.get_incomplete_downloads, Resume.order_by_created_at.
    rewrite merge_sort_Permutation. apply NoDup_ListNoDup, List.NoDup_filter.
    by apply NoDup_ListNoDup, NoDup_rows.
Qed.

(** Rows ordered and rows counted. *)
Lemma length_order_by (l : list Database.DownloadRecord) :
  length (Resume.order_by_created_at l) = length l.
Proof. unfold Resume.order_by_created_at. by rewrite merge_sort_Permutation. Qed.

Lemma length_by_status (p : string) (s : string) (db : Database.DownloadDatabase) :
  s <> "" ->
  length (Resume.get_downloads_by_playlist p (Some s) db)
  = length (List.filter (fun r => (String.eqb (Database.playlist_url r) p
                                   && String.eqb (Database.status r) s)%bool)
                        (Resume.rows db)).
Proof.
  intros Hs. unfold Resume.get_downloads_by_playlist. rewrite length_order_by.
  destruct s as [|c s]; [done|]. done.
Qed.

Lemma length_incomplete_split (p : string) (l : list Database.DownloadRecord) :
  let count s :=
    length (List.filter (fun r => (String.eqb (Database.playlist_url r) p
                                   && String.eqb (Database.status r) s)%bool) l) in
  length (List.filter (fun r => (String.eqb (Database.playlist_url r) p
                                 && Resume.incomplete_status (Database.status r))%bool) l)
  = (count "pending" + count "downloading" + count "failed")%nat.
Proof.
  induction l as [|r l IH]; [done|]. cbn zeta in *. cbn [List.filter].
  unfold Resume.incomplete_status in *.
  destruct (String.eqb (Database.playlist_url r) p); cbn [andb]; [|exact IH].
  destruct (String.eqb (Database.status r) "pending") eqn:H1,
           (String.eqb (Database.status r) "downloading") eqn:H2,
           (String.eqb (Database.status r) "failed") eqn:H3;
    cbn [orb length]; try lia;
    rewrite ?String.eqb_eq in *; congruence.
Qed.

(** X11. In the resume information of a playlist the incomplete count is
    the number of its pending, downloading and failed rows, and
    [total_count] adds the failed rows a second time: it exceeds the number
    of pending, downloading, failed and completed rows by the number of
    failed ones. Resuming is possible exactly when a row is incomplete. *)
Theorem resume_info_counts (p_url : string) (db : Database.DownloadDatabase) :
  p_url <> "" ->
  let info := Resume.get_resume_info p_url db in
  let count s := length (Resume.get_downloads_by_playlist p_url (Some s) db) in
  Resume.incomplete_count info
  = (count "pending" + count "downloading" + count "failed")%nat
  /\ Resume.failed_count info = count "failed"
  /\ Resume.completed_count info = count "completed"
  /\ Resume.total_count info
     = (count "pending" + count "downloading" + count "failed" + count "completed"
        + count "failed")%nat
  /\ (Resume.can_resume info = true <-> (0 < Resume.incomplete_count info)%nat)
  /\ Resume.incomplete_downloads info = Resume.get_incomplete_downloads (Some p_url) db.
Proof.
  intros Hp info count.
  assert (Hinc : Resume.incomplete_count info
                 = (count "pending" + count "downloading" + count "failed")%nat).
  { subst info count. cbn [Resume.get_resume_info Resume.incomplete_count].
    rewrite !length_by_status by done.
    unfold Resume.get_incomplete_downloads. rewrite length_order_by.
    destruct p_url as [|c p]; [done|].
    apply (length_incomplete_split (String c p) (Resume.rows db)). }
  split; [exact Hinc|]. split; [done|]. split; [done|].
  split; [|split; [|done]].
  - subst info. cbn [Resume.get_resume_info Resume.total_count].
    change (length (Resume.get_incomplete_downloads (Some p_url) db))
      with (Resume.incomplete_count (Resume.get_resume_info p_url db)).
    rewrite Hinc. subst count. cbn zeta. lia.
  - subst info. cbn [Resume.get_resume_info Resume.can_resume Resume.incomplete_count].
    apply Nat.ltb_lt.
Qed.

Lemma resume_info_counts_witness :
  let db := (Downloader.database (Scenario.run Scenario.fresh).2) in
  let info := Resume.get_resume_info Scenario.playlist_url (default Scenario.empty_database db) in
  Scenario.playlist_url <> ""
  /\ Resume.failed_count info = 1%nat
  /\ Resume.total_count info
     = (Resume.incomplete_count info + Resume.completed_count info + 1)%nat.
Proof.
  intros db info.
  assert (Hp : Scenario.playlist_url <> "") by discriminate.
  destruct (resume_info_counts Scenario.playlist_url
              (default Scenario.empty_database db) Hp)
    as (Hinc & Hfail & Hcomp & Htotal & _).
  fold info in Hinc, Hfail, Hcomp, Htotal.
  assert (Hone : Resume.failed_count info = 1%nat) by (vm_compute; reflexivity).
  split; [exact Hp|]. split; [exact Hone|].
  rewrite Htotal, Hinc, Hcomp, <- Hfail, Hone. lia.
Defined.

(** ** Resume manager *)

Lemma mark_for_retry_lookup (p_url : string) (video_ids : option (list string))
      (db : Database.DownloadDatabase) (k : string) :
  Database.downloads (Resume.mark_for_retry p_url video_ids db).2 !! k
  = (fun r => if Resume.marked p_url video_ids r then Resume.reset_for_retry r else r)
      <$> Database.downloads db !! k.
Proof. cbn. apply lookup_fmap. Qed.

Lemma marked_spec (p_url : string) (video_ids : option (list string))
      (r : Database.DownloadRecord) :
  Resume.marked p_url video_ids r = true
  <-> Database.playlist_url r = p_url
      /\ Database.status r = "failed"
      /\ (forall v ids, video_ids = Some (v :: ids) -> In (Database.video_id r) (v :: ids)).
Proof.
  unfold Resume.marked. rewrite !andb_true_iff, !String.eqb_eq.
  destruct video_ids as [[|v ids]|].
  - split; [by intros [[-> _] ->]|tauto].
  - rewrite existsb_exists. split.
    + intros [[-> (x & Hin & Hx)] ->]. apply String.eqb_eq in Hx as <-.
      split; [done|]. split; [done|]. by intros ? ? [= <- <-].
    + intros (-> & -> & Hin). split; [|done]. split; [done|].
      exists (Database.video_id r). split; [by apply Hin|apply String.eqb_refl].
  - split; [by intros [[-> _] ->]|tauto].
Qed.


Lemma store_wf_mark_for_retry (p_url : string) (video_ids : option (list string))
      (db : Database.DownloadDatabase) :
  Resume.store_wf db -> Resume.store_wf (Resume.mark_for_retry p_url video_ids db).2.
Proof.
  intros [Hkey Huniq].
  assert (Hback : forall k r,
             Database.downloads (Resume.mark_for_retry p_url video_ids db).2 !! k
             = Some r ->
             exists r0, Database.downloads db !! k = Some r0
                        /\ Database.id r = Database.id r0
                        /\ Database.playlist_url r = Database.playlist_url r0
                        /\ Database.video_id r = Database.video_id r0).
  { intros k r. rewrite mark_for_retry_lookup.
    destruct (Database.downloads db !! k) as [r0|]; [|done]. cbn.
    intros [= <-]. exists r0. split; [done|].
    by destruct (Resume.marked p_url video_ids r0). }
  split.
  - intros k r Hk. destruct (Hback k r Hk) as (r0 & Hk0 & Hid & _).
    rewrite Hid. by apply Hkey.
  - intros k1 k2 r1 r2 Hk1 Hk2 Hp Hv.
    destruct (Hback k1 r1 Hk1) as (r1' & Hk1' & _ & Hp1 & Hv1).
    destruct (Hback k2 r2 Hk2) as (r2' & Hk2' & _ & Hp2 & Hv2).
    apply (Huniq k1 k2 r1' r2' Hk1' Hk2'); congruence.
Qed.

Section PrepareResume.
Variable now : Q.

Lemma prepare_fold_lookup (l : list Database.DownloadRecord) :
  forall (db : Database.DownloadDatabase) (k : string),
    Database.downloads (fold_left (Resume.prepare_step now) l db) !! k
    = if existsb (fun x => (String.eqb (Database.status x) "downloading"
                            && String.eqb (Database.id x) k)%bool) l
      then Database.assign (Database.set_status "pending")
             <$> Database.downloads db !! k
      else Database.downloads db !! k.
Proof.
  induction l as [|x l IH]; intros db k; [done|].
  cbn [fold_left existsb]. rewrite IH. unfold Resume.prepare_step.
  destruct (String.eqb (Database.status x) "downloading"); cbn [andb orb]; [|done].
  rewrite update_download_status_lookup.
  destruct (decide (k = Database.id x)) as [->|Hne].
  - rewrite String.eqb_refl. cbn [orb].
    destruct (existsb _ l); destruct (Database.downloads db !! Database.id x); done.
  - assert (String.eqb (Database.id x) k = false) as ->; [|done].
    apply String.eqb_neq. congruence.
Qed.

Lemma prepare_fold_sessions (l : list Database.DownloadRecord) :
  forall db, Database.download_sessions (fold_left (Resume.prepare_step now) l db)
             = Database.download_sessions db.
Proof.
  induction l as [|x l IH]; intros db; [done|].
  cbn [fold_left]. rewrite IH. unfold Resume.prepare_step.
  destruct (String.eqb (Database.status x) "downloading"); [|done].
  unfold Database.update_download_status.
  by destruct (Database.downloads db !! Database.id x).
Qed.

Lemma prepare_fold_wf (l : list Database.DownloadRecord) :
  forall db, Resume.store_wf db ->
             Resume.store_wf (fold_left (Resume.prepare_step now) l db).
Proof.
  induction l as [|x l IH]; intros db Hwf; [done|].
  cbn [fold_left]. apply IH. unfold Resume.prepare_step.
  destruct (String.eqb (Database.status x) "downloading"); [|done].
  by apply store_wf_update_download_status.
Qed.
End PrepareResume.

(** X13. On a store that respects its schema, [prepare_resume_list] turns
    every "downloading" row of the playlist into a "pending" one and changes
    nothing else: failed rows stay failed, the other columns, the other rows
    and the sessions are kept. Afterwards no row of the playlist is
    "downloading". It returns the video URLs of the rows that were incomplete
    before, oldest first. *)
Theorem prepare_resume_list_spec (now : Q) (p_url : string)
        (db : Database.DownloadDatabase) :
  Resume.store_wf db ->
  p_url <> "" ->
  let out := Resume.prepare_resume_list now p_url db in
  out.1 = map Database.video_url (Resume.get_incomplete_downloads (Some p_url) db)
  /\ (forall k,
         Database.downloads out.2 !! k
         = (fun r => if (String.eqb (Database.playlist_url r) p_url
                         && String.eqb (Database.status r) "downloading")%bool
                     then Database.assign (Database.set_status "pending") r
                     else r) <$> Database.downloads db !! k)
  /\ (forall k r, Database.downloads out.2 !! k = Some r ->
                  Database.playlist_url r = p_url ->
                  Database.status r <> "downloading")
  /\ (forall k r, Database.downloads db !! k = Some r ->
                  Database.status r <> "downloading" ->
                  Database.downloads out.2 !! k = Some r)
  /\ Database.download_sessions out.2 = Database.download_sessions db.
Proof.
  intros Hwf Hp out. subst out. unfold Resume.prepare_resume_list. cbn [fst snd].
  split; [done|].
  assert (Hlookup : forall k,
             Database.downloads
               (fold_left (Resume.prepare_step now)
                  (Resume.get_incomplete_downloads (Some p_url) db) db) !! k
             = (fun r => if (String.eqb (Database.playlist_url r) p_url
                             && String.eqb (Database.status r) "downloading")%bool
                         then Database.assign (Database.set_status "pending") r
                         else r) <$> Database.downloads db !! k).
  { intros k. rewrite prepare_fold_lookup.
    destruct (Database.downloads db !! k) as [r|] eqn:Hk; [|by destruct (existsb _ _)].
    cbn [fmap option_fmap option_map].
    match goal with |- (if ?b then _ else _) = _ => destruct b eqn:Hex end.
    - apply existsb_exists in Hex as (x & Hin & Hx).
      apply andb_true_iff in Hx as [Hst Hid].
      apply String.eqb_eq in Hst, Hid.
      apply list_elem_of_In, elem_of_get_incomplete in Hin as ([k' Hk'] & Hscope & _).
      destruct Hwf as [Hkey _]. pose proof (Hkey _ _ Hk') as Hid'.
      assert (x = r) as -> by congruence.
      unfold Resume.in_scope in Hscope. destruct p_url as [|c p]; [done|].
      cbn in Hscope. rewrite Hscope, Hst. done.
    - destruct (String.eqb (Database.playlist_url r) p_url
                && String.eqb (Database.status r) "downloading")%bool eqn:Hc; [|done].
      apply andb_true_iff in Hc as [Hpl Hst].
      assert (existsb (fun x => (String.eqb (Database.status x) "downloading"
                                 && String.eqb (Database.id x) k)%bool)
                      (Resume.get_incomplete_downloads (Some p_url) db) = true);
        [|congruence].
      apply existsb_exists. exists r. split.
      + apply list_elem_of_In, elem_of_get_incomplete.
        split; [by exists k|]. split.
        * unfold Resume.in_scope. destruct p_url as [|c p]; [done|]. exact Hpl.
        * apply String.eqb_eq in Hst. rewrite Hst. done.
      + rewrite Hst. destruct Hwf as [Hkey _]. rewrite (Hkey _ _ Hk).
        by rewrite String.eqb_refl. }
  split; [exact Hlookup|]. split; [|split].
  - intros k r. rewrite Hlookup.
    destruct (Database.downloads db !! k) as [r0|]; [|done]. cbn.
    destruct (String.eqb (Database.playlist_url r0) p_url
              && String.eqb (Database.status r0) "downloading")%bool eqn:Hc.
    + by intros [= <-].
    + intros [= <-] Hpl Hst. rewrite Hpl, Hst, !String.eqb_refl in Hc. done.
  - intros k r Hk Hst. rewrite Hlookup, Hk. cbn.
    assert (String.eqb (Database.status r) "downloading" = false) as ->
      by (by apply String.eqb_neq).
    by rewrite andb_false_r.
  - apply prepare_fold_sessions.
Qed.

Lemma store_wf_empty : Resume.store_wf Scenario.empty_database.
Proof. split; intros *; cbn; by rewrite lookup_empty. Qed.

Lemma prepare_resume_list_spec_witness :
  let stuck := Database.DownloadRecord_new 0 "a1" "list" "video-1" "v1" "One"
                                           "One.mp4" "downloading" "720" "mp4" in
  let db := (Database.add_download stuck Scenario.empty_database).2 in
  let out := Resume.prepare_resume_list 5 "list" db in
  out.1 = ["video-1"]
  /\ Database.status <$> Database.downloads out.2 !! "a1" = Some "pending".
Proof.
  intros stuck db out.
  assert (Hwf : Resume.store_wf db)
    by (apply store_wf_add_download, store_wf_empty).
  assert (Hp : "list" <> "") by discriminate.
  destruct (prepare_resume_list_spec 5 "list" db Hwf Hp) as (Hurls & Hlookup & _).
  fold out in Hurls, Hlookup. split.
  - rewrite Hurls. vm_compute. reflexivity.
  - rewrite Hlookup. vm_compute. reflexivity.
Defined.

(** X9. The schema of the [downloads] table is an invariant of the store:
    rows are filed under their own id and no two rows share a playlist and a
    video id. It holds of the empty store and every write keeps it:
    [add_download], [update_download_status], [mark_for_retry] and
    [prepare_resume_list]. *)
Theorem store_schema_invariant (db : Database.DownloadDatabase) :
  Resume.store_wf db ->
  (forall record, Resume.store_wf (Database.add_download record db).2)
  /\ (forall now download_id new_status bytes error,
         Resume.store_wf (Database.update_download_status
                            now download_id new_status bytes error db).2)
  /\ (forall p_url video_ids, Resume.store_wf (Resume.mark_for_retry p_url video_ids db).2)
  /\ (forall now p_url, Resume.store_wf (Resume.prepare_resume_list now p_url db).2)
  /\ Resume.store_wf Scenario.empty_database.
Proof.
  intros Hwf. split; [intros; by apply store_wf_add_download|].
  split; [intros; by apply store_wf_update_download_status|].
  split; [intros; by apply store_wf_mark_for_retry|].
  split; [intros; by apply prepare_fold_wf|apply store_wf_empty].
Qed.

Lemma store_schema_invariant_witness :
  Resume.store_wf
    (Database.add_download (Scenario.item "2")
       (Database.add_download (Scenario.item "1") Scenario.empty_database).2).2.
Proof.
  assert (H0 : Resume.store_wf Scenario.empty_database).
  { split; intros *; cbn; by rewrite lookup_empty. }
  destruct (store_schema_invariant Scenario.empty_database H0) as [H1 _].
  destruct (store_schema_invariant _ (H1 (Scenario.item "1"))) as [H2 _].
  exact (H2 (Scenario.item "2")).
Defined.

Lemma is_video_downloaded_spec (p v : string) (db : Database.DownloadDatabase) :
  Database.is_video_downloaded p v db = true
  <-> exists k r, Database.downloads db !! k = Some r
                  /\ Database.playlist_url r = p /\ Database.video_id r = v
                  /\ Database.status r = "completed".
Proof.
  unfold Database.is_video_downloaded. rewrite existsb_exists. split.
  - intros ([k r] & Hin & Hc). cbn in Hc.
    apply andb_true_iff in Hc as [Hc Hs]. apply andb_true_iff in Hc as [Hp Hv].
    apply String.eqb_eq in Hp, Hv, Hs.
    exists k, r. split; [|done]. by apply elem_of_map_to_list, list_elem_of_In.
  - intros (k & r & Hk & Hp & Hv & Hs). exists (k, r). split.
    + by apply list_elem_of_In, elem_of_map_to_list.
    + cbn. rewrite Hp, Hv, Hs, !String.eqb_refl. done.
Qed.

(** X14. A job the worker has claimed is never taken for already
    downloaded: on a store that respects its schema and holds the record's
    row, once the attempt has set the row to "downloading" the test
    [is_video_downloaded] is false for that playlist and video, so an attempt
    that passes its guards and returns has called the collaborator. *)
Theorem claimed_job_not_skipped
        (ydl_download : string -> Downloader.YouTubeDownloader
                        -> option string * Downloader.YouTubeDownloader)
        (record row : Database.DownloadRecord) (d : Downloader.YouTubeDownloader)
        (db : Database.DownloadDatabase) (cb : CircuitBreaker) (now : Q) :
  Resume.store_wf db ->
  Database.downloads db !! Database.id record = Some row ->
  Database.playlist_url row = Database.playlist_url record ->
  Database.video_id row = Database.video_id record ->
  Database.is_video_downloaded
    (Database.playlist_url record) (Database.video_id record)
    (Database.update_download_status now (Database.id record) "downloading"
                                     None None db).2 = false
  /\ (Downloader.database d = Some db ->
      can_execute (Downloader.clock d) (Downloader.circuit_breaker d) = Some (true, cb) ->
      shutdown_requested (Downloader.graceful_shutdown d) = false ->
      forall b,
        (Downloader.download_single_video_body ydl_download record d).1 = Returned b ->
        exists d1 d2, ydl_download (Database.video_url record) d1 = (None, d2)).
Proof.
  intros Hwf Hrow Hp Hv.
  assert (Hnot : forall t,
             Database.is_video_downloaded
               (Database.playlist_url record) (Database.video_id record)
               (Database.update_download_status t (Database.id record) "downloading"
                                                None None db).2 = false).
  { intros t. apply not_true_iff_false. intros Hyes.
    apply is_video_downloaded_spec in Hyes as (k & r & Hk & Hpr & Hvr & Hs).
    pose proof (store_wf_update_download_status
                  t (Database.id record) "downloading" None None db Hwf) as [_ Huniq].
    assert (Hmine : Database.downloads
                      (Database.update_download_status
                         t (Database.id record) "downloading" None None db).2
                    !! Database.id record
                    = Some (Database.assign (Database.set_status "downloading") row)).
    { rewrite update_download_status_lookup, decide_True, Hrow by done. done. }
    assert (k = Database.id record).
    { apply (Huniq _ _ _ _ Hk Hmine); cbn; congruence. }
    subst k. rewrite Hmine in Hk. injection Hk as <-. cbn in Hs. discriminate Hs. }
  split; [apply Hnot|].
  intros Hdb Hc Hs b. unfold Downloader.download_single_video_body.
  rewrite Hc. cbn [negb]. unfold is_shutdown_requested.
  cbn [Downloader.graceful_shutdown Downloader.set_circuit_breaker]. rewrite Hs.
  unfold Downloader.on_database.
  cbn [Downloader.database Downloader.set_active_downloads
       Downloader.set_graceful_shutdown Downloader.set_circuit_breaker
       Downloader.clock Downloader.existing_files Downloader.set_database].
  rewrite Hdb.
  cbn [Downloader.database Downloader.set_active_downloads
       Downloader.set_graceful_shutdown Downloader.set_circuit_breaker
       Downloader.clock Downloader.existing_files Downloader.set_database].
  rewrite Hnot, andb_false_r.
  match goal with |- context [ydl_download ?u ?w] =>
    destruct (ydl_download u w) as [[text|] w'] eqn:Hy end; [done|].
  intros _. eauto.
Qed.

Lemma claimed_job_not_skipped_witness :
  let db := (Database.add_download (Scenario.item "1") Scenario.empty_database).2 in
  Database.is_video_downloaded
    (Database.playlist_url (Scenario.item "1")) (Database.video_id (Scenario.item "1"))
    (Database.update_download_status 3 (Database.id (Scenario.item "1")) "downloading"
                                     None None db).2 = false.
Proof.
  intros db.
  assert (Hwf : Resume.store_wf db)
    by (apply store_wf_add_download, store_wf_empty).
  destruct (claimed_job_not_skipped Scenario.ydl_download (Scenario.item "1")
              (Scenario.item "1") Scenario.fresh db
              (Downloader.circuit_breaker Scenario.fresh) 3 Hwf)
    as [Hnot _]; [reflexivity|reflexivity|reflexivity|].
  exact Hnot.
Defined.

Lemma List_filter_Permutation {A : Type} (f : A -> bool) (l1 l2 : list A) :
  l1 ≡ₚ l2 -> List.filter f l1 ≡ₚ List.filter f l2.
Proof.
  induction 1 as [|x l1 l2 _ IH|x y l|l1 l2 l3 _ IH1 _ IH2]; cbn [List.filter].
  - done.
  - destruct (f x); [by constructor|done].
  - destruct (f x), (f y); try done. by constructor.
  - by etransitivity.
Qed.

Lemma List_filter_fmap {A : Type} (f : A -> bool) (g : A -> A) (l : list A) :
  (forall x, f (g x) = f x) -> List.filter f (g <$> l) = g <$> List.filter f l.
Proof.
  intros Hfg. induction l as [|x l IH]; [done|].
  cbn [fmap list_fmap List.filter]. rewrite Hfg.
  destruct (f x); cbn [fmap list_fmap]; by rewrite <- IH.
Qed.

(** X15. [mark_for_retry] does not change which jobs are incomplete: for
    any scope, the ids [get_incomplete_downloads] returns afterwards are those
    it returned before, as many of them, so a playlist can be resumed after
    the call exactly when it could before. *)
Theorem mark_for_retry_keeps_incomplete (p_url : string)
        (video_ids : option (list string)) (q : option string)
        (db : Database.DownloadDatabase) :
  let db' := (Resume.mark_for_retry p_url video_ids db).2 in
  Database.id <$> Resume.get_incomplete_downloads q db'
  ≡ₚ Database.id <$> Resume.get_incomplete_downloads q db
  /\ length (Resume.get_incomplete_downloads q db')
     = length (Resume.get_incomplete_downloads q db)
  /\ (forall p, Resume.can_resume_playlist p db' = Resume.can_resume_playlist p db).
Proof.
  intros db'.
  set (g := fun r => if Resume.marked p_url video_ids r
                     then Resume.reset_for_retry r else r).
  assert (Hperm : forall q',
             Database.id <$> Resume.get_incomplete_downloads q' db'
             ≡ₚ Database.id <$> Resume.get_incomplete_downloads q' db).
  { intros q'. unfold Resume.get_incomplete_downloads, Resume.order_by_created_at.
    rewrite !merge_sort_Permutation.
    assert (Hrows : Resume.rows db' ≡ₚ g <$> Resume.rows db).
    { subst db'. unfold Resume.rows. cbn [snd Resume.mark_for_retry Database.downloads
                                            Database.with_downloads].
      rewrite map_to_list_fmap, <- !list_fmap_compose. done. }
    rewrite (List_filter_Permutation _ _ _ Hrows).
    rewrite List_filter_fmap.
    - rewrite <- list_fmap_compose.
      assert (Heq : forall l : list Database.DownloadRecord,
                 (Database.id ∘ g) <$> l = Database.id <$> l).
      { intros l. apply list_fmap_ext. intros i r _. subst g. cbn.
        by destruct (Resume.marked p_url video_ids r). }
      by rewrite Heq.
    - intros r. subst g. cbn. destruct (Resume.marked p_url video_ids r) eqn:Hm; [|done].
      apply marked_spec in Hm as (_ & Hs & _). rewrite Hs. done. }
  assert (Hlen : forall q',
             length (Resume.get_incomplete_downloads q' db')
             = length (Resume.get_incomplete_downloads q' db)).
  { intros q'. rewrite <- (length_fmap Database.id (Resume.get_incomplete_downloads q' db')).
    rewrite (Hperm q'). by rewrite length_fmap. }
  split; [apply Hperm|]. split; [apply Hlen|].
  intros p. unfold Resume.can_resume_playlist. by rewrite Hlen.
Qed.

(** ** Result loops and the resumed run *)

Lemma collect_counts (futures : list (bool * result bool)) :
  forall (s f : Z) (d : Downloader.YouTubeDownloader),
    (Downloader.collect futures s f d).1
    = (s + Downloader.count_succeeded (Downloader.processed futures),
       f + Downloader.count_failed (Downloader.processed futures)).
Proof.
  induction futures as [|[seen job] futures IH]; intros s f d.
  - cbn. unfold Downloader.count_succeeded, Downloader.count_failed. cbn.
    f_equal; lia.
  - cbn [Downloader.collect Downloader.processed]. destruct seen.
    + cbn. unfold Downloader.count_succeeded, Downloader.count_failed. cbn.
      f_equal; lia.
    + rewrite count_succeeded_cons, count_failed_cons.
      destruct job as [[|]| |]; cbn [Downloader.succeeded]; rewrite IH; f_equal; lia.
Qed.

Lemma resume_collect_counts (futures : list (bool * result bool)) :
  forall (s f : Z),
    ResumeRun.resume_collect futures s f
    = (s + Downloader.count_succeeded (Downloader.processed futures),
       f + Downloader.count_failed (Downloader.processed futures)).
Proof.
  induction futures as [|[seen job] futures IH]; intros s f.
  - cbn. unfold Downloader.count_succeeded, Downloader.count_failed. cbn.
    f_equal; lia.
  - cbn [ResumeRun.resume_collect Downloader.processed]. destruct seen.
    + cbn. unfold Downloader.count_succeeded, Downloader.count_failed. cbn.
      f_equal; lia.
    + rewrite count_succeeded_cons, count_failed_cons.
      destruct job as [[|]| |]; cbn [Downloader.succeeded]; rewrite IH; f_equal; lia.
Qed.

Lemma processed_no_shutdown (futures : list (bool * result bool)) :
  Forall (fun future => future.1 = false) futures ->
  Downloader.processed futures = futures.*2.
Proof.
  induction 1 as [|[seen job] futures Hseen _ IH]; [done|].
  cbn in Hseen. subst seen. cbn. by rewrite IH.
Qed.

Lemma counts_total (jobs : list (result bool)) :
  Downloader.count_succeeded jobs + Downloader.count_failed jobs
  = Z.of_nat (length jobs).
Proof.
  induction jobs as [|job jobs IH]; [done|].
  rewrite count_succeeded_cons, count_failed_cons. cbn [length].
  destruct (Downloader.succeeded job); lia.
Qed.

(** X16. The result loop of [download_playlist] counts every future it gets
    through exactly once, as a success or as a failure: the two counters add
    up to the number of futures before the first one at which shutdown is
    seen, whatever the world. When shutdown is never seen they add up to the
    number of jobs and do not depend on the order in which the jobs
    complete. *)
Theorem collect_counts_every_future (futures futures' : list (bool * result bool))
        (d d' : Downloader.YouTubeDownloader) :
  let out := Downloader.collect futures 0 0 d in
  out.1.1 + out.1.2 = Z.of_nat (length (Downloader.processed futures))
  /\ (length (Downloader.processed futures) <= length futures)%nat
  /\ 0 <= out.1.1 /\ 0 <= out.1.2
  /\ (Forall (fun future => future.1 = false) futures ->
      out.1.1 + out.1.2 = Z.of_nat (length futures)
      /\ (futures ≡ₚ futures' -> (Downloader.collect futures' 0 0 d').1 = out.1)).
Proof.
  intros out. subst out. rewrite collect_counts. cbn [fst snd].
  split; [pose proof (counts_total (Downloader.processed futures)); lia|].
  split.
  { induction futures as [|[[|] job] futures IH]; cbn; lia. }
  split; [unfold Downloader.count_succeeded; lia|].
  split; [unfold Downloader.count_failed; lia|].
  intros Hseen. rewrite processed_no_shutdown by done.
  split.
  { pose proof (counts_total futures.*2) as Ht. rewrite length_fmap in Ht. lia. }
  intros Hperm. rewrite collect_counts.
  assert (Hseen' : Forall (fun future => future.1 = false) futures')
    by (by rewrite <- Hperm).
  rewrite processed_no_shutdown by done.
  assert (Hjobs : futures'.*2 ≡ₚ futures.*2) by (by rewrite Hperm).
  unfold Downloader.count_succeeded, Downloader.count_failed.
  by rewrite (List_filter_Permutation _ _ _ Hjobs),
             (List_filter_Permutation (fun job => negb (Downloader.succeeded job))
                                      _ _ Hjobs).
Qed.

(** X17. A resumed run creates a session whose total is the number of
    incomplete records handed to it, writes the counters once, after the
    loop, and finalizes the session "completed" whatever the number of
    failures; it returns whether no job failed. With [resume=True],
    [download_playlist] takes this path exactly when the playlist has an
    incomplete row, handing the pool the rows [get_incomplete_downloads]
    returns as they are; otherwise, and with [resume=False], it runs as a
    fresh download. *)
Theorem resumed_session_status
        (p_url new_session_id config_json : string)
        (incomplete_records : list Database.DownloadRecord)
        (pool : list Database.DownloadRecord -> Downloader.YouTubeDownloader
                -> list (bool * result bool) * Downloader.YouTubeDownloader)
        (d : Downloader.YouTubeDownloader) (db : Database.DownloadDatabase) :
  Downloader.database d = Some db ->
  (Database.download_sessions db !! new_session_id = None ->
   let started := ResumeRun.start_resume_session p_url incomplete_records
                                                 new_session_id config_json d in
   let drained := pool incomplete_records started in
   Downloader.session_id drained.2 = Downloader.session_id started ->
   Database.download_sessions <$> Downloader.database drained.2
   = Database.download_sessions <$> Downloader.database started ->
   let out := ResumeRun._resume_playlist_download p_url incomplete_records
                new_session_id config_json pool d in
   let jobs := Downloader.processed drained.1 in
   out.1 = (Downloader.count_failed jobs =? 0)
   /\ exists db' row,
       Downloader.database out.2 = Some db'
       /\ Database.download_sessions db' !! new_session_id = Some row
       /\ Database.session_status row = "completed"
       /\ Database.session_completed_at row = Some (Downloader.clock drained.2)
       /\ Database.total_videos row = Z.of_nat (length incomplete_records)
       /\ Database.completed_videos row = Downloader.count_succeeded jobs
       /\ Database.failed_videos row = Downloader.count_failed jobs)
  /\ (forall extracted,
         ResumeRun.download_playlist p_url true extracted new_session_id
                                     config_json pool d
         = if Resume.can_resume_playlist p_url db
           then ResumeRun._resume_playlist_download
                  p_url (Resume.get_incomplete_downloads (Some p_url) db)
                  new_session_id config_json pool d
           else Downloader.download_playlist p_url extracted new_session_id
                                             config_json pool d)
  /\ (forall extracted,
         ResumeRun.download_playlist p_url false extracted new_session_id
                                     config_json pool d
         = Downloader.download_playlist p_url extracted new_session_id
                                        config_json pool d).
Proof.
  intros Hdb. split; [|split].
  - intros Hfresh started drained Hsid Hsessions out jobs.
    subst out. unfold ResumeRun._resume_playlist_download. fold started. fold drained.
    assert (Hstarted : exists db1 row1,
               Downloader.database started = Some db1
               /\ Downloader.session_id started = Some new_session_id
               /\ Database.download_sessions db1 !! new_session_id = Some row1
               /\ Database.total_videos row1 = Z.of_nat (length incomplete_records)).
    { subst started. unfold ResumeRun.start_resume_session.
      rewrite Hdb. unfold Database.create_download_session. rewrite Hfresh.
      eexists _, _. split; [done|]. split; [done|].
      cbn. rewrite lookup_insert_eq. done. }
    destruct Hstarted as (db1 & row1 & Hdb1 & Hsid1 & Hrow1 & Ht1).
    destruct drained as [futures d2] eqn:Hdrained. cbn [fst snd] in *.
    rewrite Hdb1 in Hsessions. rewrite Hsid1 in Hsid.
    destruct (Downloader.database d2) as [db2|] eqn:Hdb2; [|done].
    injection Hsessions as Hsessions.
    rewrite resume_collect_counts, Hsid. unfold Downloader.on_database. rewrite Hdb2.
    cbn [fst snd]. split; [subst jobs; f_equal; lia|].
    eexists _, _. split; [done|]. cbn.
    rewrite !lookup_alter_eq, Hsessions, Hrow1. cbn.
    split; [done|]. split; [done|]. split; [done|]. split; [done|].
    subst jobs. cbn [Database.completed_videos Database.failed_videos]. split; lia.
  - intros extracted. unfold ResumeRun.download_playlist. rewrite Hdb. done.
  - intros extracted. unfold ResumeRun.download_playlist. done.
Qed.

Lemma resumed_session_status_witness :
  let db := default Scenario.empty_database
                    (Downloader.database (Scenario.run Scenario.fresh).2) in
  let d := Downloader.set_session_id None
             (Downloader.YouTubeDownloader_init 20 (fun _ => 1 # 2)%Q (Some db) ∅) in
  let records := Resume.get_incomplete_downloads (Some Scenario.playlist_url) db in
  let out := ResumeRun._resume_playlist_download
               Scenario.playlist_url records "session2" "{}"
               (Downloader.run_jobs Scenario.ydl_download) d in
  Downloader.database d = Some db
  /\ Database.download_sessions db !! "session2" = None
  /\ out.1 = false
  /\ exists db' row,
      Downloader.database out.2 = Some db'
      /\ Database.download_sessions db' !! "session2" = Some row
      /\ Database.session_status row = "completed"
      /\ Database.total_videos row = 3.
Proof.
  intros db d records out.
  assert (Hdb : Downloader.database d = Some db) by reflexivity.
  assert (Hfresh : Database.download_sessions db !! "session2" = None)
    by (vm_compute; reflexivity).
  destruct (resumed_session_status Scenario.playlist_url "session2" "{}" records
              (Downloader.run_jobs Scenario.ydl_download) d db Hdb) as [Hrun _].
  destruct (Hrun Hfresh) as [Hres (db' & row & H1 & H2 & H3 & _ & H5 & _)];
    [vm_compute; reflexivity|vm_compute; reflexivity|].
  split; [exact Hdb|]. split; [exact Hfresh|]. split.
  - fold out in Hres. rewrite Hres. vm_compute. reflexivity.
  - exists db', row. split; [exact H1|]. split; [exact H2|]. split; [exact H3|].
    rewrite H5. vm_compute. reflexivity.
Defined.

(** ** Retries and the shared breaker *)

Section Progress.
Context {W : Type} `{Runtime W} {A : Type}.
Variable config : RetryConfig.
Variable func : W -> outcome A * W.
(** A condition on the world, indexed by the number of the attempt about to
    be made, under which each attempt fails with an expected, retryable
    error. *)
Variable stuck : Z -> W -> Prop.
Variable expected : DownloadError -> Prop.
Hypothesis expected_retryable : forall e, expected e -> retryable config e = true.
Hypothesis func_stuck :
  forall n w, 1 <= n <= max_attempts config -> stuck n w ->
    exists x w', func w = (Raised x, w') /\ stuck (n + 1) w' /\ expected (caught x).
Hypothesis sleep_stuck : forall n delay w, stuck n w -> stuck n (sleep delay w).
Hypothesis random_stuck : forall n w, stuck n w -> stuck n (random w).2.

Lemma retry_from_progress (remaining : nat) :
  forall (attempt : Z) (last_error : option DownloadError) (w : W),
    1 <= attempt ->
    stuck attempt w ->
    (1 <= remaining)%nat ->
    Z.of_nat remaining = max_attempts config - attempt + 1 ->
    let r := retry_from config func remaining attempt last_error w in
    attempts (trace r) = Z.of_nat remaining
    /\ (exists e, res r = Err e /\ expected e)
    /\ stuck (max_attempts config + 1) (world r).
Proof.
  induction remaining as [|k IH]; intros attempt last_error w Hone Hw Hpos Hrem; [lia|].
  intros r. subst r. cbn [retry_from].
  destruct (func_stuck attempt w ltac:(lia) Hw) as (x & w1 & -> & Hw1 & Hexp).
  pose proof (expected_retryable _ Hexp) as Hretry.
  destruct (should_retry config (caught x) attempt) eqn:Hsr; cbn [negb].
  - apply should_retry_true in Hsr as [Hlt _].
    apply Z.ltb_lt in Hlt as Hltb. rewrite Hltb.
    assert (Hw2 : stuck (attempt + 1) (calculate_delay config attempt w1).2).
    { unfold calculate_delay. destruct (jitter config); [|done].
      specialize (random_stuck (attempt + 1) w1 Hw1). by destruct (random w1). }
    destruct (calculate_delay config attempt w1) as [delay w2]. cbn [snd] in Hw2.
    destruct (IH (attempt + 1) (Some (caught x)) (sleep delay w2))
      as (Ha & He & Hst); [lia|by apply sleep_stuck|lia|lia|].
    cbn [emit trace res world app].
    unfold attempts in *. cbn [List.filter app length].
    split; [lia|]. split; [done|done].
  - assert (attempt = max_attempts config).
    { destruct (Z.lt_ge_cases attempt (max_attempts config)) as [Hlt|Hge]; [|lia].
      assert (should_retry config (caught x) attempt = true)
        by (by apply should_retry_true).
      congruence. }
    subst attempt. cbn [trace res world]. unfold attempts. cbn [List.filter length].
    split; [lia|]. split; [by eexists|done].
Qed.
End Progress.

(** An attempt on a closed breaker whose fetch fails: the error raised is
    the classified one, one failure is recorded on the breaker, and the
    shutdown flag and the output files are as the fetch left them. *)
Lemma body_fetch_failure
      (ydl_download : string -> Downloader.YouTubeDownloader
                      -> option string * Downloader.YouTubeDownloader)
      (text : string) (record : Database.DownloadRecord)
      (w : Downloader.YouTubeDownloader) :
  (forall u w0, exists w',
      ydl_download u w0 = (Some text, w')
      /\ Downloader.circuit_breaker w' = Downloader.circuit_breaker w0
      /\ Downloader.graceful_shutdown w' = Downloader.graceful_shutdown w0
      /\ Downloader.existing_files w' = Downloader.existing_files w0) ->
  state (Downloader.circuit_breaker w) = closed ->
  shutdown_requested (Downloader.graceful_shutdown w) = false ->
  (Database.filename record ∉ Downloader.existing_files w) ->
  exists w' now,
    Downloader.download_single_video_body ydl_download record w
    = (Raised (RaisedDownloadError
                 (classify_ytdlp_error text (Database.video_url record))), w')
    /\ Downloader.circuit_breaker w' = record_failure now (Downloader.circuit_breaker w)
    /\ shutdown_requested (Downloader.graceful_shutdown w') = false
    /\ Downloader.existing_files w' = Downloader.existing_files w.
Proof.
  intros Hydl Hst Hs Hf.
  assert (Hframe : forall op d0,
             Downloader.circuit_breaker (Downloader.on_database op d0)
             = Downloader.circuit_breaker d0
             /\ Downloader.graceful_shutdown (Downloader.on_database op d0)
                = Downloader.graceful_shutdown d0
             /\ Downloader.existing_files (Downloader.on_database op d0)
                = Downloader.existing_files d0).
  { intros op d0. unfold Downloader.on_database.
    by destruct (Downloader.database d0). }
  unfold Downloader.download_single_video_body, can_execute. rewrite Hst.
  cbn [negb]. rewrite set_circuit_breaker_same.
  unfold is_shutdown_requested. rewrite Hs. lazy zeta.
  set (d1 := Downloader.on_database _ _).
  assert (H1 : Downloader.circuit_breaker d1 = Downloader.circuit_breaker w
               /\ shutdown_requested (Downloader.graceful_shutdown d1) = false
               /\ Downloader.existing_files d1 = Downloader.existing_files w).
  { subst d1. destruct (Hframe
      (fun db => (Database.update_download_status
                    (Downloader.clock
                       (Downloader.set_active_downloads
                          (<[Database.id record := Database.filename record]>
                             (Downloader.active_downloads
                                (Downloader.set_graceful_shutdown
                                   (register_download (Database.id record)
                                      (Downloader.graceful_shutdown w)) w)))
                          (Downloader.set_graceful_shutdown
                             (register_download (Database.id record)
                                (Downloader.graceful_shutdown w)) w)))
                    (Database.id record) "downloading" None None db).2)
      (Downloader.set_active_downloads
         (<[Database.id record := Database.filename record]>
            (Downloader.active_downloads
               (Downloader.set_graceful_shutdown
                  (register_download (Database.id record)
                     (Downloader.graceful_shutdown w)) w)))
         (Downloader.set_graceful_shutdown
            (register_download (Database.id record)
               (Downloader.graceful_shutdown w)) w))) as (Ha & Hb & Hc).
    rewrite Ha, Hb, Hc. done. }
  destruct H1 as (Hcb1 & Hgs1 & Hex1).
  match goal with |- context [if ?b then _ else _] =>
    assert (b = false) as -> end.
  { destruct (Downloader.database d1); [|done].
    rewrite Hex1. by rewrite bool_decide_eq_false_2. }
  destruct (Hydl (Database.video_url record) d1) as (w' & -> & Hcb & Hgs & Hex).
  eexists _, (Downloader.clock w'). split; [done|].
  unfold Downloader.cleanup_download.
  cbn [Downloader.circuit_breaker Downloader.graceful_shutdown
       Downloader.existing_files Downloader.set_active_downloads
       Downloader.set_graceful_shutdown shutdown_requested unregister_download].
  match goal with |- context [Downloader.on_database ?op ?d0] =>
    destruct (Hframe op d0) as (Ha & Hb & Hc) end.
  rewrite Ha, Hb, Hc. cbn. rewrite Hcb, Hcb1, Hgs, Hgs1, Hex, Hex1. done.
Qed.

(** X18. Every failed attempt, not every failed job, counts on the shared
    breaker. When the fetch keeps failing with a retryable error (and leaves
    breaker, shutdown flag and output files alone), a job that starts on a
    closed breaker with [c] failures counted, [c + 2] below the threshold,
    makes its 3 attempts and leaves the count at [c + 3]; the breaker is then
    open if that reaches the threshold. *)
Theorem failing_job_counts_three
        (ydl_download : string -> Downloader.YouTubeDownloader
                        -> option string * Downloader.YouTubeDownloader)
        (text : string) (record : Database.DownloadRecord)
        (d : Downloader.YouTubeDownloader) (c : Z) :
  (forall u w, exists w',
      ydl_download u w = (Some text, w')
      /\ Downloader.circuit_breaker w' = Downloader.circuit_breaker w
      /\ Downloader.graceful_shutdown w' = Downloader.graceful_shutdown w
      /\ Downloader.existing_files w' = Downloader.existing_files w) ->
  retryable (RetryConfig_default 3)
            (classify_ytdlp_error text (Database.video_url record)) = true ->
  state (Downloader.circuit_breaker d) = closed ->
  failure_count (Downloader.circuit_breaker d) = c ->
  c + 2 < failure_threshold (Downloader.circuit_breaker d) ->
  shutdown_requested (Downloader.graceful_shutdown d) = false ->
  (Database.filename record ∉ Downloader.existing_files d) ->
  let r := Downloader._download_single_video ydl_download record d in
  attempts (trace r) = 3
  /\ res r = Err (classify_ytdlp_error text (Database.video_url record))
  /\ failure_count (Downloader.circuit_breaker (world r)) = c + 3
  /\ state (Downloader.circuit_breaker (world r))
     = (if c + 3 <? failure_threshold (Downloader.circuit_breaker d)
        then closed else open).
Proof.
  intros Hydl Hretry Hclosed Hcount Hbelow Hshut Hfile r.
  set (th := failure_threshold (Downloader.circuit_breaker d)) in *.
  set (stuck := fun (n : Z) (w : Downloader.YouTubeDownloader) =>
         (failure_threshold (Downloader.circuit_breaker w) = th)
         /\ failure_count (Downloader.circuit_breaker w) = c + n - 1
         /\ state (Downloader.circuit_breaker w)
            = (if c + n - 1 <? th then closed else open)
         /\ shutdown_requested (Downloader.graceful_shutdown w) = false
         /\ (Database.filename record ∉ Downloader.existing_files w)).
  set (expected := fun e : DownloadError =>
         (e = classify_ytdlp_error text (Database.video_url record))).
  assert (Hexp : forall e, expected e -> retryable (RetryConfig_default 3) e = true)
    by (by intros e ->).
  assert (Hfunc : forall n w,
             1 <= n <= max_attempts (RetryConfig_default 3) -> stuck n w ->
             exists x w',
               Downloader.download_single_video_body ydl_download record w
               = (Raised x, w')
               /\ stuck (n + 1) w' /\ expected (caught x)).
  { intros n w Hn (Hth & Hc & Hst & Hs & Hf). cbn in Hn.
    assert (Hlt : (c + n - 1 <? th) = true) by (apply Z.ltb_lt; lia).
    rewrite Hlt in Hst.
    destruct (body_fetch_failure ydl_download text record w Hydl Hst Hs Hf)
      as (w' & now & Hbody & Hcb & Hgs & Hex).
    eexists _, w'. split; [exact Hbody|]. split; [|done].
    destruct (record_failure_fields now (Downloader.circuit_breaker w))
      as (Hth' & _ & Hfc' & _).
    pose proof (record_failure_state now (Downloader.circuit_breaker w)) as Hst'.
    unfold stuck. rewrite Hcb, Hth', Hfc', Hst', Hth, Hc, Hst, Hgs, Hex.
    split; [done|]. split; [lia|]. split; [|done].
    rewrite Z.geb_leb.
    replace (c + n - 1 + 1) with (c + (n + 1) - 1) by lia.
    destruct (Z.leb_spec th (c + (n + 1) - 1)), (Z.ltb_spec (c + (n + 1) - 1) th);
      done || lia. }
  assert (Hsleep : forall n delay w, stuck n w -> stuck n (sleep delay w)) by done.
  assert (Hrandom : forall n w, stuck n w -> stuck n (random w).2) by done.
  destruct (retry_from_progress (RetryConfig_default 3) _ stuck expected Hexp Hfunc
              Hsleep Hrandom 3%nat 1 None d)
    as (Ha & (e & He & ->) & (_ & Hc' & Hst' & _)); [lia| |lia|cbn; lia|].
  { unfold stuck. replace (c + 1 - 1) with c by lia.
    assert ((c <? th) = true) as -> by (apply Z.ltb_lt; lia). done. }
  split; [exact Ha|]. split; [exact He|].
  cbn [max_attempts RetryConfig_default] in Hc', Hst'.
  replace (c + (3 + 1) - 1) with (c + 3) in Hc', Hst' by lia.
  split; [exact Hc'|exact Hst'].
Qed.

Lemma failing_job_counts_three_witness :
  let ydl_download := fun (_ : string) (w : Downloader.YouTubeDownloader) =>
                        (Some "Connection reset by peer", w) in
  let r := Downloader._download_single_video ydl_download (Scenario.item "1")
                                             Scenario.fresh in
  attempts (trace r) = 3
  /\ failure_count (Downloader.circuit_breaker (world r)) = 0 + 3
  /\ state (Downloader.circuit_breaker (world r)) = closed.
Proof.
  intros ydl_download r.
  destruct (failing_job_counts_three ydl_download "Connection reset by peer"
              (Scenario.item "1") Scenario.fresh 0)
    as (Ha & _ & Hc & Hst); try reflexivity.
  - intros u w. by exists w.
  - cbn. apply not_elem_of_empty.
  - split; [exact Ha|]. split; [exact Hc|exact Hst].
Defined.

(** ** Error classifier: a keyword that never decides *)

Lemma string_app_assoc (a b c : string) :
  String.append (String.append a b) c = String.append a (String.append b c).
Proof.
  induction a as [|x a IH]; [done|].
  change (String x (String.append (String.append a b) c)
          = String x (String.append a (String.append b c))).
  by rewrite IH.
Qed.

Lemma prefix_spec (k : string) : forall s,
  String.prefix k s = true <-> exists b, s = String.append k b.
Proof.
  induction k as [|x k IH]; intros s.
  - split; [intros _; by exists s|by destruct s].
  - destruct s as [|y s].
    + split; [done|by intros [b Hb]].
    + change (String.prefix (String x k) (String y s))
        with (if ascii_dec x y then String.prefix k s else false).
      change (fun b => String y s = String.append (String x k) b)
        with (fun b => String y s = String x (String.append k b)).
      destruct (ascii_dec x y) as [->|Hne].
      * rewrite IH. split; intros [b Hb]; exists b.
        -- change (String y s = String y (String.append k b)). by rewrite Hb.
        -- change (String y s = String y (String.append k b)) in Hb. congruence.
      * split; [done|]. intros [b Hb].
        change (String y s = String x (String.append k b)) in Hb. congruence.
Qed.

Lemma contains_spec (k : string) : forall s,
  Py.contains k s = true
  <-> exists a b, s = String.append a (String.append k b).
Proof.
  induction s as [|c s IH].
  - change (Py.contains k "") with (String.prefix k "" || false)%bool.
    rewrite orb_false_r, prefix_spec. split.
    + intros [b Hb]. by exists "", b.
    + intros (a & b & Hab). destruct a; [by exists b|done].
  - change (Py.contains k (String c s))
      with (String.prefix k (String c s) || Py.contains k s)%bool.
    rewrite orb_true_iff, prefix_spec, IH. split.
    + intros [[b Hb]|(a & b & Hab)].
      * by exists "", b.
      * exists (String c a), b.
        change (String c s = String c (String.append a (String.append k b))).
        by rewrite Hab.
    + intros (a & b & Hab). destruct a as [|c' a].
      * left. by exists b.
      * right. exists a, b.
        change (String c s = String c' (String.append a (String.append k b))) in Hab.
        congruence.
Qed.

(** A message that contains a phrase contains every part of the phrase. *)
Lemma contains_trans (k1 k2 s : string) :
  Py.contains k1 k2 = true -> Py.contains k2 s = true -> Py.contains k1 s = true.
Proof.
  rewrite !contains_spec. intros (a1 & b1 & ->) (a2 & b2 & ->).
  exists (String.append a2 a1), (String.append b1 b2).
  by rewrite !string_app_assoc.
Qed.

(** X19. The keyword "format not available" never decides a
    classification: a message that contains it also contains "not
    available", a keyword of the earlier group of unavailable videos, so it is
    classified as a network, quota or unavailable-video error and never as a
    format error. *)
Theorem format_not_available_shadowed (msg u : string) :
  Py.contains "format not available" (Py.lower msg) = true ->
  error_type (classify_ytdlp_error msg u) <> FORMAT_ERROR
  /\ (error_type (classify_ytdlp_error msg u) = NETWORK_ERROR
      \/ error_type (classify_ytdlp_error msg u) = QUOTA_EXCEEDED
      \/ error_type (classify_ytdlp_error msg u) = VIDEO_UNAVAILABLE)
  /\ (Py.any_in network_keywords (Py.lower msg) = false ->
      Py.any_in quota_keywords (Py.lower msg) = false ->
      error_type (classify_ytdlp_error msg u) = VIDEO_UNAVAILABLE).
Proof.
  intros Hk.
  assert (Hun : Py.any_in unavailable_keywords (Py.lower msg) = true).
  { apply (any_in_intro "not available"); [cbn; tauto|].
    by apply (contains_trans _ "format not available"). }
  rewrite classify_first_match. unfold keyword_groups, first_matching_group.
  rewrite Hun.
  destruct (Py.any_in network_keywords (Py.lower msg));
    destruct (Py.any_in quota_keywords (Py.lower msg));
    (split; [done|]); (split; [|done || (by intros)]); auto.
Qed.

Lemma format_not_available_shadowed_witness :
  error_type (classify_ytdlp_error "ERROR: Requested format not available" "")
  = VIDEO_UNAVAILABLE.
Proof.
  apply (format_not_available_shadowed "ERROR: Requested format not available" "");
    reflexivity.
Defined.
